(** * Chat-with-your-PDF: a shallow embedding of [app/main.py] and
      [gradio_ui.py], with the properties of its request handlers.

    The service keeps two module-level globals ([vector_store] and
    [rag_chain]), writes each upload to a temporary directory, runs a fixed
    pipeline of third-party calls over it and removes the file again.  The
    embedding keeps that shape: handlers are computations in a state and
    exception monad over a [World] (file system, vector-index store, the two
    globals, the UUID generator and the log of external calls), Python's
    [try]/[except]/[finally] are combinators of that monad, and the third-party
    services are a record of functions, one per call the code makes. *)

From Stdlib Require Import Strings.String Strings.Ascii Strings.Byte ZArith List Lia.
From stdpp Require Import base option list gmap strings pretty fin_maps.

Local Open Scope string_scope.
Local Open Scope list_scope.

(** ** Python [str] operations used by the handlers *)

Module PyStr.

(** [s.startswith(p)] *)
Fixpoint startswith (p s : string) : bool :=
  match p, s with
  | EmptyString, _ => true
  | String _ _, EmptyString => false
  | String a p', String b s' => if Ascii.eqb a b then startswith p' s' else false
  end.

(** [s.endswith("/")], the only suffix test the code base needs (inside
    [os.path.join]). *)
Fixpoint endswith_slash (s : string) : bool :=
  match s with
  | EmptyString => false
  | String c EmptyString => Ascii.eqb c "/"
  | String _ r => endswith_slash r
  end.

(** [sub in s] *)
Fixpoint contains (sub s : string) : bool :=
  startswith sub s ||
  match s with
  | EmptyString => false
  | String _ r => contains sub r
  end.

(** The scan of [str.replace] for a non-empty [old]: left to right, a match
    at the current position emits [new] and skips the rest of the match
    ([skip] characters still to drop), anything else is copied. *)
Fixpoint replace_from (old new : string) (skip : nat) (s : string) : string :=
  match s with
  | EmptyString => EmptyString
  | String c r =>
      match skip with
      | S k => replace_from old new k r
      | O =>
          if startswith old s
          then new +:+ replace_from old new (String.length old - 1) r
          else String c (replace_from old new 0 r)
      end
  end.

(** With an empty [old], Python puts [new] before every character and at
    the end. *)
Fixpoint intersperse_around (new s : string) : string :=
  match s with
  | EmptyString => new
  | String c r => new +:+ String c (intersperse_around new r)
  end.

(** [s.replace(old, new)] *)
Definition replace (old new s : string) : string :=
  match old with
  | EmptyString => intersperse_around new s
  | String _ _ => replace_from old new 0 s
  end.


(** [s[:k]] *)
Fixpoint slice_to (k : nat) (s : string) : string :=
  match k, s with
  | O, _ => EmptyString
  | S _, EmptyString => EmptyString
  | S k', String c r => String c (slice_to k' r)
  end.

End PyStr.

(** ** [posixpath]: the two functions the upload path goes through *)

Module PosixPath.
Import PyStr.

(** [os.path.join(a, p)] for two arguments, where [os.path] is [posixpath]
    (every host but Windows). *)
Definition join (a p : string) : string :=
  if startswith "/" p then p
  else if (String.length a =? 0)%nat || endswith_slash a then a +:+ p
  else a +:+ "/" +:+ p.





End PosixPath.

(** ** [app/main.py] *)

Module Main.
Import PyStr.

(** *** Values *)

(** The exceptions the handlers tell apart: FastAPI's [HTTPException],
    [google.api_core.exceptions.ResourceExhausted] (with its [message]
    attribute), and every other [Exception], kept as class name and text. *)
Inductive exn : Type :=
| HTTPException (status_code : Z) (detail : string)
| ResourceExhausted (message : string)
| OtherException (cls : string) (text : string).

(** [str(e)], as the f-strings of the handlers format it. *)
Definition exn_str (e : exn) : string :=
  match e with
  | HTTPException c d => pretty c +:+ ": " +:+ d
  | ResourceExhausted m => "429 " +:+ m
  | OtherException _ t => t
  end.

(** A LangChain [Document]. *)
Record Document : Type := mkDocument {
  page_content : string;
  metadata : gmap string string
}.

(** An embedding: one number per dimension.  The numbers are opaque to the
    service, which only moves them around; each stands for one Python
    float. *)
Abbreviation Embedding := (list Z).

(** One entry of a vector index. *)
Record Entry : Type := mkEntry {
  entry_id : string;
  entry_embedding : Embedding;
  entry_document : string;
  entry_metadata : gmap string string
}.

(** The [Chroma] wrapper object: it names a collection of the in-memory
    client and remembers the embedding model. *)
Record Chroma : Type := mkChroma {
  collection_name : string;
  embedding_function : string
}.

(** The retrieval chain built by [create_rag_chain]. *)
Record Chain : Type := mkChain {
  chain_llm_model : string;
  chain_llm_temperature : Z;
  chain_prompt : list (string * string);
  chain_retriever : Chroma
}.

(** FastAPI's [UploadFile].  [content_type] and [filename] are optional
    headers of the multipart part; [file] is the body. *)
Record UploadFile : Type := mkUploadFile {
  content_type : option string;
  filename : option string;
  file : list byte
}.

Record AskRequest : Type := mkAskRequest { question : string }.

(** A node of the file system, keyed by its path string. *)
Inductive node : Type :=
| NFile (content : list byte)
| NDir (st_size : nat).

(** The calls that leave the process or touch the disk, as logged. *)
Inductive call : Type :=
| CallOpenWrite (path : string)
| CallRemove (path : string)
| CallPdfLoad (path : string)
| CallEmbeddingsInit (model : string)
| CallCollectionCreate (name : string)
| CallEmbedDocuments (model : string) (texts : list string)
| CallCollectionAdd (name : string) (ids : list string)
    (embeddings : list Embedding) (documents : list string)
    (metadatas : list (gmap string string))
| CallLLMInit (model : string) (temperature : Z)
| CallChainInvoke (input : string).

(** The state a request runs in.  [vector_store] and [rag_chain] are the two
    module globals, the Session; [collections] is the store of the in-memory
    vector database, shared by every [Chroma] wrapper of the process;
    [uuid_next] counts the UUIDs drawn so far; [calls] is the log, most recent
    call first. *)
Record World : Type := mkWorld {
  fs : gmap string node;
  collections : gmap string (list Entry);
  vector_store : option Chroma;
  rag_chain : option Chain;
  uuid_next : nat;
  calls : list call
}.

(** The third-party services, one function per call the code makes.  A
    function into [exn + _] or [option exn] may raise. *)
Record Provider : Type := mkProvider {
  (** [PyPDFLoader(path).load()] on a file with the given content *)
  pdf_load : string → list byte → exn + list Document;
  (** [RecursiveCharacterTextSplitter(chunk_size, chunk_overlap).split_documents] *)
  split_documents : Z → Z → list Document → exn + list Document;
  (** [GoogleGenerativeAIEmbeddings(model=...)] *)
  embeddings_init : string → option exn;
  (** [embeddings_model.embed_documents(texts)] *)
  embed_documents : string → list string → exn + list Embedding;
  (** [str(uuid.uuid4())], by the number of draws made before *)
  uuid4 : nat → string;
  (** [ChatGoogleGenerativeAI(model=..., temperature=...)] *)
  llm_init : string → Z → option exn;
  (** [chain.invoke({"input": q})] over the entries the retriever sees *)
  chain_invoke : Chain → list Entry → string → exn + gmap string string
}.

(** *** The monad of handlers: state and exceptions *)

Definition M (A : Type) : Type := World → (exn + A) * World.

Definition ret {A} (a : A) : M A := λ w, (inr a, w).

Definition raise {A} (e : exn) : M A := λ w, (inl e, w).

Definition bind {A B} (m : M A) (k : A → M B) : M B :=
  λ w, match m w with
       | (inl e, w') => (inl e, w')
       | (inr a, w') => k a w'
       end.

Notation "'let*' x ':=' m 'in' k" := (bind m (λ x, k))
  (at level 10, x name, m at level 200, k at level 200, only parsing).
Notation "m >> k" := (bind m (λ _, k))
  (at level 90, right associativity, only parsing).

(** [try: body / except Exception as e: handler(e)] *)
Definition try_except {A} (body : M A) (handler : exn → M A) : M A :=
  λ w, match body w with
       | (inl e, w') => handler e w'
       | (inr a, w') => (inr a, w')
       end.

(** [try: body / finally: cleanup]: the cleanup always runs; an exception it
    raises replaces the outcome of the body. *)
Definition try_finally {A} (body : M A) (cleanup : M unit) : M A :=
  λ w, match body w with
       | (r, w') =>
           match cleanup w' with
           | (inl e, w'') => (inl e, w'')
           | (inr _, w'') => (r, w'')
           end
       end.

Definition gets {A} (f : World → A) : M A := λ w, (inr (f w), w).

Definition modify (f : World → World) : M unit := λ w, (inr tt, f w).

Definition set_fs (m : gmap string node) (w : World) : World :=
  mkWorld m (collections w) (vector_store w) (rag_chain w) (uuid_next w) (calls w).
Definition set_collections (c : gmap string (list Entry)) (w : World) : World :=
  mkWorld (fs w) c (vector_store w) (rag_chain w) (uuid_next w) (calls w).
Definition set_vector_store (v : option Chroma) (w : World) : World :=
  mkWorld (fs w) (collections w) v (rag_chain w) (uuid_next w) (calls w).
Definition set_rag_chain (r : option Chain) (w : World) : World :=
  mkWorld (fs w) (collections w) (vector_store w) r (uuid_next w) (calls w).
Definition set_uuid_next (n : nat) (w : World) : World :=
  mkWorld (fs w) (collections w) (vector_store w) (rag_chain w) n (calls w).
Definition set_calls (l : list call) (w : World) : World :=
  mkWorld (fs w) (collections w) (vector_store w) (rag_chain w) (uuid_next w) l.

Definition log (c : call) : M unit := modify (λ w, set_calls (c :: calls w) w).

(** A computation leaves the observation [f] of the world as it found it,
    whatever its outcome. *)
Definition preserves {X A} (f : World → X) (m : M A) : Prop :=
  ∀ w, f (m w).2 = f w.

(** The Session: the two globals side by side. *)
Definition session (w : World) : option Chroma * option Chain :=
  (vector_store w, rag_chain w).

(** Lifting the outcome of a third-party call. *)
Definition lift_result {A} (r : exn + A) : M A :=
  match r with inl e => raise e | inr a => ret a end.

Definition lift_ctor (r : option exn) : M unit :=
  match r with Some e => raise e | None => ret tt end.

(** *** [os], [shutil] and [uuid] on the world *)

(** [open(path, "wb")]: creates or truncates a regular file; the empty path
    names nothing and a directory cannot be opened for writing. *)
Definition open_wb (path : string) : M unit :=
  log (CallOpenWrite path) >>
  let* m := gets fs in
  if String.eqb path "" then
    raise (OtherException "FileNotFoundError"
             "[Errno 2] No such file or directory: ''")
  else
    match m !! path with
    | Some (NDir _) =>
        raise (OtherException "IsADirectoryError"
                 ("[Errno 21] Is a directory: '" +:+ path +:+ "'"))
    | _ => modify (set_fs (<[path := NFile []]> m))
    end.

(** [shutil.copyfileobj(src, f_out)] into the file just opened at [path]. *)
Definition copyfileobj (src : list byte) (path : string) : M unit :=
  modify (λ w, set_fs (<[path := NFile src]> (fs w)) w).

(** [os.path.getsize(path)] *)
Definition getsize (path : string) : M nat :=
  let* m := gets fs in
  match m !! path with
  | Some (NFile d) => ret (length d)
  | Some (NDir n) => ret n
  | None =>
      raise (OtherException "FileNotFoundError"
               ("[Errno 2] No such file or directory: '" +:+ path +:+ "'"))
  end.

(** [os.path.exists(path)] *)
Definition path_exists (path : string) : M bool :=
  gets (λ w, bool_decide (is_Some (fs w !! path))).

(** [os.remove(path)] *)
Definition remove (path : string) : M unit :=
  log (CallRemove path) >>
  let* m := gets fs in
  match m !! path with
  | Some (NFile _) => modify (set_fs (delete path m))
  | Some (NDir _) =>
      raise (OtherException "IsADirectoryError"
               ("[Errno 21] Is a directory: '" +:+ path +:+ "'"))
  | None =>
      raise (OtherException "FileNotFoundError"
               ("[Errno 2] No such file or directory: '" +:+ path +:+ "'"))
  end.

(** *** The vector index *)

(** The entries one [add] inserts: the four sequences side by side. *)
Fixpoint make_entries (ids : list string) (embeddings : list Embedding)
    (documents : list string) (metadatas : list (gmap string string))
    : list Entry :=
  match ids, embeddings, documents, metadatas with
  | i :: ids', e :: embeddings', d :: documents', m :: metadatas' =>
      mkEntry i e d m :: make_entries ids' embeddings' documents' metadatas'
  | _, _, _, _ => []
  end.

(** Modelled from the spec: the [create] operation of the Vector Index
    (section 4.4), which is the third-party [Chroma] constructor here.  It
    allocates a new, empty index under [collection_id]; the spec requires the
    identifier to be unused, and outside that precondition the existing index
    of that name is handed out unchanged. *)
Definition Chroma_init (name model : string) : M Chroma :=
  log (CallCollectionCreate name) >>
  modify (λ w, match collections w !! name with
               | Some _ => w
               | None => set_collections (<[name := []]> (collections w)) w
               end) >>
  ret (mkChroma name model).

(** Modelled from the spec: the [add] operation of the Vector Index (section
    4.4), which is the third-party [db._collection.add] here.  All four
    sequences must have equal length and the ids must not already exist in
    the index; otherwise the call raises and inserts nothing. *)
Definition collection_add (db : Chroma) (ids : list string)
    (embeddings : list Embedding) (documents : list string)
    (metadatas : list (gmap string string)) : M unit :=
  log (CallCollectionAdd (collection_name db) ids embeddings documents metadatas) >>
  let* c := gets collections in
  match c !! collection_name db with
  | None => raise (OtherException "ValueError" "Collection does not exist.")
  | Some entries =>
      if negb ((length embeddings =? length ids)%nat
               && (length documents =? length ids)%nat
               && (length metadatas =? length ids)%nat)
      then raise (OtherException "ValueError" "Unequal lengths.")
      else if negb (bool_decide (NoDup ids))
              || existsb (λ i, bool_decide (i ∈ map entry_id entries)) ids
      then raise (OtherException "DuplicateIDError" "ID already exists.")
      else modify (set_collections
                     (<[collection_name db :=
                          entries ++ make_entries ids embeddings documents metadatas]> c))
  end.

Section Handlers.

(** [TEMP_DIR = tempfile.mkdtemp()], fixed when the module is loaded. *)
Variable TEMP_DIR : string.
Variable P : Provider.

(** [str(uuid.uuid4())] *)
Definition uuid4_str : M string :=
  λ w, (inr (uuid4 P (uuid_next w)), set_uuid_next (S (uuid_next w)) w).

(** [[str(uuid.uuid4()) for _ in documents]] *)
Fixpoint fresh_ids (documents : list string) : M (list string) :=
  match documents with
  | [] => ret []
  | _ :: rest =>
      let* i := uuid4_str in
      let* more := fresh_ids rest in
      ret (i :: more)
  end.

(** *** Helper functions *)

Definition load_and_split_pdf (file_path : string) : M (list Document) :=
  try_except
    (log (CallPdfLoad file_path) >>
     let* m := gets fs in
     let* content :=
       match m !! file_path with
       | Some (NFile d) => ret d
       | _ => raise (OtherException "ValueError"
                       ("File path " +:+ file_path +:+ " is not a valid file or url"))
       end in
     let* pages := lift_result (pdf_load P file_path content) in
     let* chunks := lift_result (split_documents P 1000 200 pages) in
     ret chunks)
    (λ e, raise e).

Definition create_vector_store (chunks : list Document) : M Chroma :=
  try_except
    (let embeddings_model := "models/embedding-001" in
     log (CallEmbeddingsInit embeddings_model) >>
     lift_ctor (embeddings_init P embeddings_model) >>
     let* u := uuid4_str in
     let* db := Chroma_init ("pdf_chat_" +:+ u) embeddings_model in
     let documents := map page_content chunks in
     log (CallEmbedDocuments embeddings_model documents) >>
     let* embeddings := lift_result (embed_documents P embeddings_model documents) in
     let embeddings := map (λ e : Embedding, e) embeddings in
     let* ids := fresh_ids documents in
     let metadatas := map metadata chunks in
     collection_add db ids embeddings documents metadatas >>
     ret db)
    (λ e, raise e).

Definition system_prompt : string :=
  "You are an assistant for question-answering tasks. " +:+
  "Use the following pieces of retrieved context to answer the question. " +:+
  "If you don't know the answer, just say that you don't know. " +:+
  "Keep the answer concise and based *only* on the provided context." +:+
  String "010" (String "010" "") +:+
  "<context>" +:+
  "{context}" +:+
  "</context>".

Definition create_rag_chain (db : Chroma) : M Chain :=
  try_except
    (log (CallLLMInit "gemini-pro" 0) >>
     lift_ctor (llm_init P "gemini-pro" 0) >>
     let prompt := [("system", system_prompt); ("human", "{input}")] in
     let retriever := db in
     let final_chain := mkChain "gemini-pro" 0 prompt retriever in
     ret final_chain)
    (λ e, raise e).

(** *** Endpoints *)

Definition root : M (gmap string string) :=
  ret (<["message" := "Welcome to the Chat with your PDF API!"]>
       (<["docs_url" := "/docs"]> (<["redoc_url" := "/redoc"]> ∅))).

Definition quota_detail (message : string) : string :=
  "Google API quota exceeded. Please check your plan. Error: " +:+ message.

Definition unexpected_detail (e : exn) : string :=
  "An unexpected error occurred: " +:+ exn_str e.

(** The [except] clauses of [upload_document], in their order. *)
Definition upload_except (e : exn) : M (gmap string string) :=
  match e with
  | ResourceExhausted message => raise (HTTPException 400 (quota_detail message))
  | HTTPException _ _ => raise e
  | OtherException _ _ => raise (HTTPException 500 (unexpected_detail e))
  end.

(** The [finally] clause of [upload_document], for the value [file_path]
    has when it runs. *)
Definition upload_cleanup (file_path : string) : M unit :=
  if negb (String.eqb file_path "") then
    let* ex := path_exists file_path in
    if ex then remove file_path else ret tt
  else ret tt.

(** The [try] block of [upload_document] from the point where [file_path]
    has been assigned. *)
Definition upload_try (file : UploadFile) (name file_path : string)
    : M (gmap string string) :=
  open_wb file_path >>
  copyfileobj (Main.file file) file_path >>
  let* file_size := getsize file_path in
  if (file_size =? 0)%nat
  then raise (HTTPException 400 "The uploaded PDF file is empty.")
  else
    let* chunks := load_and_split_pdf file_path in
    let* db := create_vector_store chunks in
    modify (set_vector_store (Some db)) >>
    let* vs := gets vector_store in
    let* chain :=
      match vs with
      | Some db' => create_rag_chain db'
      | None => raise (OtherException "AttributeError"
                         "'NoneType' object has no attribute 'as_retriever'")
      end in
    modify (set_rag_chain (Some chain)) >>
    ret (<["message" := "Successfully processed '" +:+ name
                         +:+ "'. Ready to answer questions."]> ∅).

(** [POST /upload].  [file_path] is [""] until the [try] block assigns it;
    the only statement before the assignment that can raise is
    [file.filename.replace], when the part carries no filename. *)
Definition upload_document (file : UploadFile) : M (gmap string string) :=
  if bool_decide (content_type file ≠ Some "application/pdf")
  then raise (HTTPException 400 "Invalid file type. Only PDFs are allowed.")
  else
    match filename file with
    | None =>
        try_finally
          (try_except
             (raise (OtherException "AttributeError"
                       "'NoneType' object has no attribute 'replace'"))
             upload_except)
          (upload_cleanup "")
    | Some name =>
        let safe_filename := replace "/" "_" (replace ".." "_" name) in
        let file_path := PosixPath.join TEMP_DIR safe_filename in
        try_finally
          (try_except (upload_try file name file_path) upload_except)
          (upload_cleanup file_path)
    end.

(** [POST /ask] *)
Definition ask_question (request : AskRequest) : M (gmap string string) :=
  let* rc := gets rag_chain in
  match rc with
  | None =>
      raise (HTTPException 400
               "No document has been processed. Please upload a PDF to /upload first.")
  | Some chain =>
      try_except
        (log (CallChainInvoke (question request)) >>
         let* c := gets collections in
         let visible := default [] (c !! collection_name (chain_retriever chain)) in
         let* response := lift_result (chain_invoke P chain visible (question request)) in
         ret (<["answer" := default "No answer found." (response !! "answer")]> ∅))
        (λ e, match e with
              | ResourceExhausted message =>
                  raise (HTTPException 400 (quota_detail message))
              | _ => raise (HTTPException 500 (unexpected_detail e))
              end)
  end.

End Handlers.

(** *** The HTTP view of an outcome, and a run of the service *)

(** FastAPI answers an [HTTPException] with its status code and any other
    exception that leaves the handler with 500. *)
Definition http_status {A} (r : exn + A) : Z :=
  match r with
  | inr _ => 200
  | inl (HTTPException c _) => c
  | inl _ => 500
  end.

Inductive request : Type :=
| GetRoot
| PostUpload (file : UploadFile)
| PostAsk (body : AskRequest).

Definition handle (TEMP_DIR : string) (P : Provider) (r : request)
    : M (gmap string string) :=
  match r with
  | GetRoot => root
  | PostUpload f => upload_document TEMP_DIR P f
  | PostAsk b => ask_question P b
  end.

(** The service handling requests one after the other; each request meets
    the third-party services in the state they are in at that time. *)
Fixpoint serve (TEMP_DIR : string) (rs : list (Provider * request)) (w : World)
    : list (request * (exn + gmap string string)) * World :=
  match rs with
  | [] => ([], w)
  | (P, r) :: rest =>
      match handle TEMP_DIR P r w with
      | (o, w') =>
          match serve TEMP_DIR rest w' with
          | (os, w'') => ((r, o) :: os, w'')
          end
      end
  end.

(** The process right after start-up: both globals are [None] (lines 40-41
    of [main.py]). *)
Definition boot (disk : gmap string node) : World :=
  mkWorld disk ∅ None None 0 [].

(** Whether an outcome of the run is an upload that succeeded. *)
Definition upload_succeeded (ro : request * (exn + gmap string string)) : bool :=
  match ro with
  | (PostUpload _, inr _) => true
  | _ => false
  end.

(** A quota error of the provider reaches the handler of request [r] in
    world [w] with message [m]: it leaves the pipeline of an upload, or the
    chain an ask invokes. *)
Inductive quota_error (TEMP_DIR : string) (P : Provider)
    : request → World → string → Prop :=
| quota_in_upload f name w w1 m :
    content_type f = Some "application/pdf" →
    filename f = Some name →
    upload_try P f name
      (PosixPath.join TEMP_DIR (replace "/" "_" (replace ".." "_" name))) w
      = (inl (ResourceExhausted m), w1) →
    quota_error TEMP_DIR P (PostUpload f) w m
| quota_in_ask b chain w m :
    rag_chain w = Some chain →
    chain_invoke P chain
      (default [] (collections w !! collection_name (chain_retriever chain)))
      (question b) = inl (ResourceExhausted m) →
    quota_error TEMP_DIR P (PostAsk b) w m.

End Main.

(** ** [gradio_ui.py] *)

Module GradioUI.
Import PyStr.

(** What [requests.post(ASK_URL, ...)] followed by [raise_for_status()] comes
    to: a success with its JSON object, an [HTTPError] with the JSON object
    of the error response, or any other exception with its text. *)
Inductive api_outcome : Type :=
| Answered (body : gmap string string)
| HTTPError (body : gmap string string)
| RequestFailed (text : string).

(** [range(start, stop, step)] for a positive [step]. *)
Definition range (start stop step : nat) : list nat :=
  if (stop <=? start)%nat then []
  else map (λ k, start + k * step) (seq 0 ((stop - start - 1) / step + 1)).

(** The generator [ask_question], as the list of the values it yields.  The
    [time.sleep] between two yields has no effect on them. *)
Definition ask_question (post : string → api_outcome) (question : string)
    (history : list (string * option string)) : list string :=
  if String.eqb question "" then ["Please ask a question."]
  else
    match post question with
    | Answered body =>
        let answer := default "No answer received." (body !! "answer") in
        map (λ i, slice_to (i + 3) answer) (range 0 (String.length answer) 3)
    | HTTPError body =>
        ["Server Error: " +:+ default "Unknown server error" (body !! "detail")]
    | RequestFailed text => ["Error: " +:+ text]
    end.

(** The loop of [handle_user_question]: every chunk overwrites the answer
    slot of the last row of [history], and the history is yielded as it then
    stands. *)
Fixpoint stream_into (history : list (string * option string))
    (chunks : list string) : list (list (string * option string) * string) :=
  match chunks with
  | [] => []
  | chunk :: rest =>
      let bot_response := chunk in
      let history' :=
        alter (λ row, (row.1, Some bot_response)) (length history - 1) history in
      (history', "") :: stream_into history' rest
  end.

(** The generator [handle_user_question]: the updates sent to the chat area
    and the text box. *)
Definition handle_user_question (post : string → api_outcome) (question : string)
    (history : list (string * option string))
    : list (list (string * option string) * string) :=
  let history := history ++ [(question, None)] in
  (history, "") :: stream_into history (ask_question post question history).

End GradioUI.

(** ** Concrete requests and providers, for running the handlers *)

Module Examples.
Import Main.

Definition tmp : string := "/tmp/tmpk3v9x1qa".

Definition two_pages : list Document :=
  [mkDocument "Rocq is a proof assistant." (<["page" := "0"]> ∅);
   mkDocument "It checks proofs." (<["page" := "1"]> ∅)].

(** Every service answers. *)
Definition provider_up : Provider :=
  mkProvider (λ _ _, inr two_pages)
             (λ _ _ pages, inr pages)
             (λ _, None)
             (λ _ texts, inr (map (λ _, [3; 1; 4]%Z) texts))
             (λ n, "id-" +:+ pretty n)
             (λ _ _, None)
             (λ _ _ _, inr (<["answer" := "A proof assistant."]> ∅)).

(** The language-model client cannot be constructed. *)
Definition provider_llm_down : Provider :=
  mkProvider (pdf_load provider_up) (split_documents provider_up)
             (embeddings_init provider_up) (embed_documents provider_up)
             (uuid4 provider_up)
             (λ _ _, Some (OtherException "DefaultCredentialsError"
                             "Your default credentials were not found."))
             (chain_invoke provider_up).

(** The provider is out of quota, for embedding and for generation. *)
Definition provider_quota : Provider :=
  mkProvider (pdf_load provider_up) (split_documents provider_up)
             (embeddings_init provider_up)
             (λ _ _, inl (ResourceExhausted "Quota exceeded for embed requests."))
             (uuid4 provider_up)
             (llm_init provider_up)
             (λ _ _ _, inl (ResourceExhausted "Quota exceeded for generate requests.")).

Definition pdf_part : UploadFile :=
  mkUploadFile (Some "application/pdf") (Some "notes.pdf")
               ["%"; "P"; "D"; "F"]%byte.

Definition empty_part : UploadFile :=
  mkUploadFile (Some "application/pdf") (Some "empty.pdf") [].

Definition text_part : UploadFile :=
  mkUploadFile (Some "text/plain") (Some "notes.txt") ["h"; "i"]%byte.

End Examples.

(** ** [gradio_ui.py]: the upload button *)

Module GradioUpload.
Import PyStr.

(** [os.path.basename(p)]: what follows the last slash of [p]. *)
Fixpoint basename (p : string) : string :=
  match p with
  | EmptyString => EmptyString
  | String _ r => if contains "/" p then basename r else p
  end.

(** What [requests.post(UPLOAD_URL, files=..., timeout=60)] comes to: a
    response with its status code and its body, which is a JSON object or not
    (then with the text of the error [response.json()] raises), or an
    exception of [requests] with its text. *)
Inductive upload_reply : Type :=
| Replied (status : Z) (body : string + gmap string string)
| NotSent (text : string).

(** [response.raise_for_status()] raises for the codes 400 to 599. *)
Definition is_error_status (status : Z) : bool :=
  (400 <=? status)%Z && (status <? 600)%Z.

(** [upload_pdf].  [open_rb] is [open(path, 'rb')] on the machine of the UI
    (the text of the exception, or the bytes); the result is the exception
    that leaves the function, or the four outputs: the chat history, the
    status text, and whether the question box and the ask button are
    interactive. *)
Definition upload_pdf (open_rb : string → string + list byte)
    (post : string → list byte → string → upload_reply)
    (file_obj : option string)
    : string + (list (string * option string) * string * bool * bool) :=
  match file_obj with
  | None => inr ([], "No file selected. Please upload a PDF.", false, false)
  | Some name =>
      let filename := basename name in
      match open_rb name with
      | inl e => inr ([], "Error: " +:+ e, false, false)
      | inr f_in =>
          match post filename f_in "application/pdf" with
          | NotSent e => inr ([], "Error: " +:+ e, false, false)
          | Replied status body =>
              if is_error_status status then
                (* [except requests.exceptions.HTTPError]: an exception of
                   [e.response.json()] in there is caught by nothing *)
                match body with
                | inl e => inl e
                | inr obj =>
                    let detail := default "Unknown server error" (obj !! "detail") in
                    inr ([], "Server Error: " +:+ detail, false, false)
                end
              else
                match body with
                | inl e => inr ([], "Error: " +:+ e, false, false)
                | inr obj =>
                    inr ([], default "Processing successful!" (obj !! "message"),
                         true, true)
                end
          end
      end
  end.

End GradioUpload.

(** ** Between the two programs: FastAPI on one side, [requests] on the other *)

Module Wire.
Import Main.

(** The response FastAPI sends for the outcome of a handler: the returned
    dict as a JSON object with status 200; an [HTTPException] as its status
    code with the object [{"detail": detail}]; for any other exception the
    plain text [Internal Server Error] with status 500, which
    [response.json()] cannot decode. *)
Definition response_of (r : exn + gmap string string)
    : Z * (string + gmap string string) :=
  match r with
  | inr body => (200%Z, inr body)
  | inl (HTTPException c d) => (c, inr (<["detail" := d]> ∅))
  | inl _ => (500%Z, inl "Expecting value: line 1 column 1 (char 0)")
  end.



End Wire.

(** ** The UUID generator over time *)

Module Draws.
Import Main.

(** A computation never takes the count of UUIDs drawn back. *)
Definition grows {A} (m : M A) : Prop :=
  ∀ w, (uuid_next w ≤ uuid_next (m w).2)%nat.

End Draws.

(** ** More concrete requests *)

Module Cases.
Import Main Examples.

(** An upload whose filename is [.], and a disk on which the path it is
    joined to is the temporary directory itself. *)
Definition dot_part : UploadFile :=
  mkUploadFile (Some "application/pdf") (Some ".") ["%"; "P"; "D"; "F"]%byte.

Definition disk_with_tmp : gmap string node :=
  <["/tmp/tmpk3v9x1qa/." := NDir 4096]> ∅.

(** The PDF parser rejects the file. *)
Definition provider_bad_pdf : Provider :=
  mkProvider (λ _ _, inl (OtherException "PdfReadError" "EOF marker not found"))
             (split_documents provider_up) (embeddings_init provider_up)
             (embed_documents provider_up) (uuid4 provider_up)
             (llm_init provider_up) (chain_invoke provider_up).

(** The world after the upload of [pdf_part] with every service up. *)
Definition ready : World :=
  (upload_document tmp provider_up pdf_part (boot ∅)).2.

Definition ready_message : gmap string string :=
  <["message" := "Successfully processed 'notes.pdf'. Ready to answer questions."]> ∅.

End Cases.

(** ** The upload up to the new store *)

Module UploadSteps.
Import Main.

(** Lines 194-206 of [upload_document]: the statements of the [try] block
    from [open(file_path, "wb")] to the call [create_vector_store(chunks)],
    whose value line 206 assigns to [vector_store].  [upload_try] is these
    statements followed by that assignment and by lines 207-210. *)
Definition upload_until_store (P : Provider) (file : UploadFile)
    (file_path : string) : M Chroma :=
  open_wb file_path >>
  copyfileobj (Main.file file) file_path >>
  let* file_size := getsize file_path in
  if (file_size =? 0)%nat
  then raise (HTTPException 400 "The uploaded PDF file is empty.")
  else
    let* chunks := load_and_split_pdf P file_path in
    create_vector_store P chunks.

End UploadSteps.

(** * Properties *)

(** ** Strings and paths *)

Section StringFacts.
Import PyStr PosixPath.

Local Arguments Ascii.eqb : simpl never.

Lemma startswith_app p s : startswith p (p +:+ s) = true.
Proof. induction p as [|a p IH]; simpl; [done|]. by rewrite Ascii.eqb_refl. Qed.

Lemma startswith_inv p s : startswith p s = true → ∃ post, s = p +:+ post.
Proof.
  revert s. induction p as [|a p IH]; intros s H; simpl in *.
  - by exists s.
  - destruct s as [|b s]; [done|].
    destruct (Ascii.eqb_spec a b) as [->|]; [|done].
    destruct (IH _ H) as [post ->]. by exists post.
Qed.

Lemma contains_unfold sub s :
  contains sub s =
  startswith sub s || match s with EmptyString => false | String _ r => contains sub r end.
Proof. by destruct s. Qed.

Lemma contains_intro sub pre post : contains sub (pre +:+ sub +:+ post) = true.
Proof.
  induction pre as [|c pre IH]; simpl.
  - change ("" +:+ sub +:+ post) with (sub +:+ post).
    rewrite contains_unfold, startswith_app. done.
  - rewrite IH. apply orb_true_r.
Qed.

Lemma contains_inv sub s :
  contains sub s = true → ∃ pre post, s = pre +:+ sub +:+ post.
Proof.
  induction s as [|c s IH]; rewrite contains_unfold; intros H.
  - rewrite orb_false_r in H. destruct (startswith_inv _ _ H) as [post ->].
    by exists "", post.
  - apply orb_true_iff in H as [H|H].
    + destruct (startswith_inv _ _ H) as [post ->]. by exists "", post.
    + destruct (IH H) as (pre & post & ->). by exists (String c pre), post.
Qed.

(** [sub in s] decides whether [sub] occurs in [s]. *)
Lemma contains_spec sub s :
  contains sub s = true ↔ ∃ pre post, s = pre +:+ sub +:+ post.
Proof.
  split; [apply contains_inv|]. intros (pre & post & ->). apply contains_intro.
Qed.

(** The two scans of the upload handler, by cases on the text. *)

Lemma replace_dots_nil : replace ".." "_" "" = "".
Proof. done. Qed.

Lemma replace_dots_match t :
  replace ".." "_" (String "." (String "." t)) = String "_" (replace ".." "_" t).
Proof. done. Qed.

Lemma replace_dots_copy c t :
  startswith ".." (String c t) = false →
  replace ".." "_" (String c t) = String c (replace ".." "_" t).
Proof. unfold replace. simpl replace_from at 1. intros H. cbn in H. by rewrite H. Qed.

Lemma replace_slash_cons c t :
  replace "/" "_" (String c t) =
  String (if Ascii.eqb c "/" then "_"%char else c) (replace "/" "_" t).
Proof.
  unfold replace. cbn [replace_from startswith String.length].
  rewrite (Ascii.eqb_sym c). by destruct (Ascii.eqb "/" c).
Qed.

Lemma replace_dots_head t :
  startswith "." t = false → startswith "." (replace ".." "_" t) = false.
Proof.
  destruct t as [|d t]; [done|]. intros H. cbn in H.
  rewrite replace_dots_copy; cbn; by destruct (Ascii.eqb "." d).
Qed.

Lemma replace_dots_clean_le n s :
  (String.length s ≤ n)%nat → contains ".." (replace ".." "_" s) = false.
Proof.
  revert s. induction n as [|n IH]; intros [|c t] Hn; simpl in Hn; try done; try lia.
  destruct (startswith ".." (String c t)) eqn:E.
  - destruct (startswith_inv _ _ E) as [post Hpost].
    change (".." +:+ post) with (String "." (String "." post)) in Hpost.
    injection Hpost as -> ->.
    rewrite replace_dots_match, contains_unfold.
    change (startswith ".." (String "_" (replace ".." "_" post))) with false.
    apply IH. simpl in Hn. lia.
  - rewrite replace_dots_copy, contains_unfold by done.
    rewrite (IH t) by lia. rewrite orb_false_r.
    cbn in E |- *. destruct (Ascii.eqb "." c); [|done].
    apply replace_dots_head. by destruct t as [|d t]; [|cbn; destruct (Ascii.eqb "." d)].
Qed.

(** After [replace("..", "_")] no two dots are adjacent. *)
Lemma replace_dots_clean s : contains ".." (replace ".." "_" s) = false.
Proof. by apply (replace_dots_clean_le (String.length s)). Qed.

(** After [replace("/", "_")] no slash is left. *)
Lemma replace_slash_clean s : contains "/" (replace "/" "_" s) = false.
Proof.
  induction s as [|c s IH]; [done|].
  rewrite replace_slash_cons, contains_unfold, IH, orb_false_r. cbn.
  destruct (Ascii.eqb_spec c "/") as [->|Hc]; [done|].
  destruct (Ascii.eqb_spec "/" c) as [<-|]; done.
Qed.

Lemma replace_slash_head t :
  startswith "." (replace "/" "_" t) = startswith "." t.
Proof.
  destruct t as [|d t]; [done|]. rewrite replace_slash_cons. cbn.
  by destruct (Ascii.eqb_spec d "/") as [->|].
Qed.

(** [replace("/", "_")] neither creates nor removes a pair of dots. *)
Lemma replace_slash_dots s :
  contains ".." (replace "/" "_" s) = contains ".." s.
Proof.
  induction s as [|c s IH]; [done|].
  rewrite replace_slash_cons, !(contains_unfold _ (String _ _)), IH. f_equal.
  cbn [startswith]. destruct (Ascii.eqb_spec c "/") as [->|]; [done|].
  destruct (Ascii.eqb "." c); [|done]. apply replace_slash_head.
Qed.

(** [posixpath] on a single trailing component. *)













End StringFacts.

(** ** The monad: what a computation leaves alone *)

Section Frames.
Import Main.
Context {X : Type} (f : World → X).

Lemma preserves_ret {A} (a : A) : preserves f (ret a).
Proof. done. Qed.

Lemma preserves_raise {A} e : preserves f (raise (A:=A) e).
Proof. done. Qed.

Lemma preserves_gets {A} (g : World → A) : preserves f (gets g).
Proof. done. Qed.

Lemma preserves_modify g : (∀ w, f (g w) = f w) → preserves f (modify g).
Proof. intros H w. apply H. Qed.

Lemma preserves_bind {A B} (m : M A) (k : A → M B) :
  preserves f m → (∀ a, preserves f (k a)) → preserves f (bind m k).
Proof.
  intros Hm Hk w. unfold bind. specialize (Hm w).
  destruct (m w) as [[e|a] w1]; simpl in *; [done|].
  by rewrite Hk.
Qed.

Lemma preserves_try_except {A} (body : M A) handler :
  preserves f body → (∀ e, preserves f (handler e)) →
  preserves f (try_except body handler).
Proof.
  intros Hm Hk w. unfold try_except. specialize (Hm w).
  destruct (body w) as [[e|a] w1]; simpl in *; [|done].
  by rewrite Hk.
Qed.

Lemma preserves_try_finally {A} (body : M A) cleanup :
  preserves f body → preserves f cleanup → preserves f (try_finally body cleanup).
Proof.
  intros Hm Hc w. unfold try_finally. specialize (Hm w).
  destruct (body w) as [r w1]. specialize (Hc w1).
  destruct (cleanup w1) as [[e|u] w2]; simpl in *; congruence.
Qed.

Lemma preserves_lift_result {A} (r : exn + A) : preserves f (lift_result r).
Proof. by destruct r. Qed.

Lemma preserves_lift_ctor r : preserves f (lift_ctor r).
Proof. by destruct r. Qed.

End Frames.

(** Decomposes a computation along its monadic structure; what is left are
    the updates of the world, closed by computation where the observation
    does not read the updated field. *)
Ltac frame :=
  repeat first
    [ progress intros
    | apply preserves_ret | apply preserves_raise | apply preserves_gets
    | apply preserves_lift_result | apply preserves_lift_ctor
    | apply preserves_bind | apply preserves_try_except
    | apply preserves_try_finally
    | apply preserves_modify; intros; repeat case_match; reflexivity
    | match goal with
      | |- Main.preserves _ (match ?x with _ => _ end) => destruct x
      end ].

Section HandlerFrames.
Import Main.
Variable TEMP_DIR : string.
Variable P : Provider.

Lemma log_keeps {X} (f : World → X) c :
  (∀ l w, f (set_calls l w) = f w) → preserves f (log c).
Proof. intros H. apply preserves_modify. intros w. apply H. Qed.

Lemma uuid4_str_keeps {X} (f : World → X) :
  (∀ n w, f (set_uuid_next n w) = f w) → preserves f (uuid4_str P).
Proof. intros H w. apply H. Qed.

Lemma fresh_ids_keeps {X} (f : World → X) docs :
  (∀ n w, f (set_uuid_next n w) = f w) → preserves f (fresh_ids P docs).
Proof.
  intros H. induction docs as [|d docs IH]; simpl; [apply preserves_ret|].
  apply preserves_bind; [by apply uuid4_str_keeps|]. intros i.
  apply preserves_bind; [done|]. intros. apply preserves_ret.
Qed.

End HandlerFrames.

Ltac frame_handlers :=
  unfold Main.upload_cleanup, Main.upload_except, Main.create_rag_chain,
    Main.create_vector_store, Main.load_and_split_pdf, Main.collection_add,
    Main.Chroma_init, Main.remove, Main.path_exists, Main.getsize,
    Main.copyfileobj, Main.open_wb, Main.log;
  repeat first
    [ apply fresh_ids_keeps; reflexivity
    | apply uuid4_str_keeps; reflexivity
    | progress frame ].

Section SessionFrames.
Import Main.
Variable TEMP_DIR : string.
Variable P : Provider.

Lemma open_wb_session path : preserves session (open_wb path).
Proof. frame_handlers. Qed.

Lemma copyfileobj_session src path : preserves session (copyfileobj src path).
Proof. frame_handlers. Qed.

Lemma getsize_session path : preserves session (getsize path).
Proof. frame_handlers. Qed.

Lemma getsize_fs path : preserves fs (getsize path).
Proof. frame_handlers. Qed.

Lemma load_and_split_pdf_session path : preserves session (load_and_split_pdf P path).
Proof. frame_handlers. Qed.

Lemma load_and_split_pdf_fs path : preserves fs (load_and_split_pdf P path).
Proof. frame_handlers. Qed.

Lemma create_vector_store_session chunks :
  preserves session (create_vector_store P chunks).
Proof. frame_handlers. Qed.

Lemma create_vector_store_fs chunks : preserves fs (create_vector_store P chunks).
Proof. frame_handlers. Qed.

Lemma create_rag_chain_session db : preserves session (create_rag_chain P db).
Proof. frame_handlers. Qed.

Lemma create_rag_chain_fs db : preserves fs (create_rag_chain P db).
Proof. frame_handlers. Qed.

Lemma upload_cleanup_session path : preserves session (upload_cleanup path).
Proof. frame_handlers. Qed.

Lemma upload_except_world {X} (f : World → X) e : preserves f (upload_except e).
Proof. frame_handlers. Qed.

End SessionFrames.

Section UploadSession.
Import Main.
Variable TEMP_DIR : string.
Variable P : Provider.

(** What the [try] block of an upload does to the Session, by outcome. *)
Lemma upload_try_session f name path w :
  match upload_try P f name path w with
  | (inr _, w') =>
      ∃ chunks w0 w1 w2 db chain,
        create_vector_store P chunks w0 = (inr db, w1) ∧
        create_rag_chain P db (set_vector_store (Some db) w1) = (inr chain, w2) ∧
        w' = set_rag_chain (Some chain) w2 ∧
        vector_store w' = Some db ∧ rag_chain w' = Some chain
  | (inl _, w') =>
      rag_chain w' = rag_chain w ∧
      (vector_store w' = vector_store w ∨
       ∃ chunks w0 w1 db e',
         create_vector_store P chunks w0 = (inr db, w1) ∧
         create_rag_chain P db (set_vector_store (Some db) w1) = (inl e', w') ∧
         vector_store w' = Some db)
  end.
Proof.
  unfold upload_try, bind.
  pose proof (open_wb_session path w) as K1.
  destruct (open_wb path w) as [[e1|[]] w1] eqn:E1; simpl in K1;
    injection K1 as Kv1 Kr1; [auto|].
  pose proof (copyfileobj_session (file f) path w1) as K2.
  destruct (copyfileobj (file f) path w1) as [[e2|[]] w2] eqn:E2; simpl in K2;
    injection K2 as Kv2 Kr2; [split; [|left]; congruence|].
  pose proof (getsize_session path w2) as K3.
  destruct (getsize path w2) as [[e3|n] w3] eqn:E3; simpl in K3;
    injection K3 as Kv3 Kr3; [split; [|left]; congruence|].
  destruct (n =? 0)%nat; [simpl; split; [|left]; congruence|].
  pose proof (load_and_split_pdf_session P path w3) as K4.
  destruct (load_and_split_pdf P path w3) as [[e4|chunks] w4] eqn:E4; simpl in K4;
    injection K4 as Kv4 Kr4; [split; [|left]; congruence|].
  pose proof (create_vector_store_session P chunks w4) as K5.
  destruct (create_vector_store P chunks w4) as [[e5|db] w5] eqn:E5; simpl in K5;
    injection K5 as Kv5 Kr5; [split; [|left]; congruence|].
  cbn [modify gets vector_store set_vector_store].
  pose proof (create_rag_chain_session P db (set_vector_store (Some db) w5)) as K6.
  destruct (create_rag_chain P db (set_vector_store (Some db) w5))
    as [[e6|chain] w6] eqn:E6; simpl in K6; injection K6 as Kv6 Kr6.
  - split; [congruence|]. right. by exists chunks, w4, w5, db, e6.
  - cbn. by exists chunks, w4, w5, w6, db, chain.
Qed.

Lemma create_rag_chain_retriever db w chain w' :
  create_rag_chain P db w = (inr chain, w') → chain_retriever chain = db.
Proof.
  unfold create_rag_chain, try_except, bind, log, modify, lift_ctor.
  destruct (llm_init P "gemini-pro" 0); simpl; [done|].
  by intros [= <- _].
Qed.

Lemma open_wb_cases path w :
  match open_wb path w with
  | (inl _, w0) => fs w0 = fs w
  | (inr _, w0) => path ≠ "" ∧ fs w0 = <[path := NFile []]> (fs w)
  end.
Proof.
  unfold open_wb, bind, log, modify, gets. cbn.
  destruct (String.eqb_spec path "") as [->|Hne]; [done|].
  by destruct (fs w !! path) as [[d|n]|].
Qed.

(** What the [try] block of an upload does to the disk: nothing when the file
    cannot be opened, and otherwise it leaves the uploaded bytes at [path]. *)
Lemma upload_try_fs f name path w :
  match open_wb path w with
  | (inl e, w0) => upload_try P f name path w = (inl e, w0) ∧ fs w0 = fs w
  | (inr _, _) =>
      path ≠ "" ∧
      fs (upload_try P f name path w).2 = <[path := NFile (file f)]> (fs w)
  end.
Proof.
  pose proof (open_wb_cases path w) as Ho.
  destruct (open_wb path w) as [[e|[]] w1] eqn:E1;
    unfold upload_try; unfold bind at 1; rewrite E1; [done|].
  destruct Ho as [Hne Hfs]. split; [done|].
  unfold bind at 1. cbn [copyfileobj modify].
  match goal with
  | |- fs (?k ?w0).2 = _ =>
      assert (K : preserves fs k) by frame_handlers; rewrite (K w0)
  end.
  cbn. by rewrite Hfs, insert_insert_eq.
Qed.

(** The [finally] clause on a regular file: it removes it. *)
Lemma upload_cleanup_file path d w :
  path ≠ "" → fs w !! path = Some (NFile d) →
  upload_cleanup path w
  = (inr tt, set_fs (delete path (fs w)) (set_calls (CallRemove path :: calls w) w)).
Proof.
  intros Hne%String.eqb_neq Hf.
  unfold upload_cleanup, bind, path_exists, gets, remove, log, modify.
  rewrite Hne. cbn. rewrite Hf. cbn. by rewrite Hf.
Qed.

Lemma upload_except_raises e w : ∃ e', upload_except e w = (inl e', w).
Proof. destruct e; eexists; reflexivity. Qed.

(** A failing [try] block makes a failing request, and neither the [except]
    clauses nor the [finally] clause touch the Session. *)
Lemma upload_handler_failed path (body : M (gmap string string)) w e w1 :
  body w = (inl e, w1) →
  ∃ e' w',
    try_finally (try_except body upload_except) (upload_cleanup path) w = (inl e', w')
    ∧ session w' = session w1.
Proof.
  intros Hb. unfold try_finally, try_except. rewrite Hb.
  destruct (upload_except_raises e w1) as [e' ->].
  pose proof (upload_cleanup_session path w1) as K.
  destruct (upload_cleanup path w1) as [[e2|[]] w2]; simpl in K; eauto.
Qed.

(** The request once the upload could be opened for writing: the outcome is
    that of the [try] block, translated by the [except] clauses, and the
    [finally] clause has removed the file. *)
Lemma upload_document_opened f name w :
  content_type f = Some "application/pdf" →
  filename f = Some name →
  let file_path :=
    PosixPath.join TEMP_DIR (PyStr.replace "/" "_" (PyStr.replace ".." "_" name)) in
  (open_wb file_path w).1 = inr tt →
  ∃ w',
    upload_document TEMP_DIR P f w
    = (match (upload_try P f name file_path w).1 with
       | inr x => inr x
       | inl e => (upload_except e (upload_try P f name file_path w).2).1
       end, w')
    ∧ session w' = session (upload_try P f name file_path w).2
    ∧ fs w' = delete file_path (fs w).
Proof.
  intros Hct Hname file_path Hopen.
  unfold upload_document. rewrite Hct, Hname.
  rewrite bool_decide_eq_false_2 by (by intros ?).
  fold file_path.
  pose proof (upload_try_fs f name file_path w) as Hfs.
  destruct (open_wb file_path w) as [[e|[]] w0]; [done|]. destruct Hfs as [Hne Hfs].
  unfold try_finally, try_except.
  destruct (upload_try P f name file_path w) as [r1 w1]. simpl in Hfs |- *.
  assert (Hfile : fs w1 !! file_path = Some (NFile (file f)))
    by by rewrite Hfs, lookup_insert_eq.
  assert (Hdel : delete file_path (fs w1) = delete file_path (fs w))
    by by rewrite Hfs, delete_insert_eq.
  destruct r1 as [e|x].
  - destruct (upload_except_raises e w1) as [e' ->].
    rewrite (upload_cleanup_file _ _ _ Hne Hfile). eexists. by split.
  - rewrite (upload_cleanup_file _ _ _ Hne Hfile). eexists. by split.
Qed.

End UploadSession.

(** ** The Session across an upload *)

(** C1, as stated, fails: when the language-model client cannot be built, the
    request fails after [vector_store] was assigned; the Session is then half
    replaced (a new [vector_store], the old [rag_chain]). *)
Lemma upload_failure_keeps_new_vector_store :
  let '(r, w') :=
    Main.upload_document Examples.tmp Examples.provider_llm_down
      Examples.pdf_part (Main.boot ∅) in
  Main.http_status r = 500%Z ∧
  Main.session (Main.boot ∅) = (None, None) ∧
  Main.session w' = (Some (Main.mkChroma "pdf_chat_id-0" "models/embedding-001"), None).
Proof. by vm_compute. Qed.

(** The Session after an upload, by outcome of the request. *)
Lemma upload_document_session (TEMP_DIR : string) (P : Main.Provider)
    (f : Main.UploadFile) (w : Main.World) :
  match Main.upload_document TEMP_DIR P f w with
  | (inr _, w') =>
      ∃ chunks w0 w1 w2 db chain,
        Main.create_vector_store P chunks w0 = (inr db, w1) ∧
        Main.create_rag_chain P db (Main.set_vector_store (Some db) w1)
          = (inr chain, w2) ∧
        Main.chain_retriever chain = db ∧
        Main.vector_store w' = Some db ∧ Main.rag_chain w' = Some chain
  | (inl _, w') =>
      Main.rag_chain w' = Main.rag_chain w ∧
      (Main.vector_store w' = Main.vector_store w ∨
       ∃ chunks w0 w1 w2 db e',
         Main.create_vector_store P chunks w0 = (inr db, w1) ∧
         Main.create_rag_chain P db (Main.set_vector_store (Some db) w1)
           = (inl e', w2) ∧
         Main.vector_store w' = Some db)
  end.
Proof.
  destruct (decide (Main.content_type f = Some "application/pdf")) as [Hct|Hct].
  2:{ unfold Main.upload_document. by rewrite bool_decide_eq_true_2; [simpl; auto|]. }
  destruct (Main.filename f) as [name|] eqn:Hname.
  2:{ unfold Main.upload_document. rewrite Hname, Hct.
      rewrite bool_decide_eq_false_2 by (by intros ?). cbn. auto. }
  set (file_path :=
    PosixPath.join TEMP_DIR (PyStr.replace "/" "_" (PyStr.replace ".." "_" name))).
  pose proof (upload_try_session P f name file_path w) as Hs.
  destruct (Main.open_wb file_path w) as [[e0|[]] w0] eqn:Ho.
  - pose proof (upload_try_fs P f name file_path w) as Hf. rewrite Ho in Hf.
    destruct Hf as [Hf _]. rewrite Hf in Hs.
    destruct (upload_handler_failed file_path _ _ _ _ Hf) as (e' & w' & Hr & Hw').
    unfold Main.upload_document. rewrite Hname, Hct.
    rewrite bool_decide_eq_false_2 by (by intros ?). fold file_path. rewrite Hr.
    injection Hw' as Hv Hr'. destruct Hs as [Hs1 Hs2]. split; [congruence|].
    destruct Hs2 as [Hs2|(chunks & wa & wb & db & e2 & ? & ? & ?)].
    + left. congruence.
    + right. exists chunks, wa, wb, w0, db, e2. repeat split; congruence.
  - destruct (upload_document_opened TEMP_DIR P f name w Hct Hname)
      as (w' & Hr & Hw' & _); [by fold file_path; rewrite Ho|].
    fold file_path in Hr, Hw'. rewrite Hr.
    destruct (Main.upload_try P f name file_path w) as [[e1|x] w1]; simpl in *.
    + destruct (upload_except_raises e1 w1) as [e' ->]. simpl.
      injection Hw' as Hv Hr'. destruct Hs as [Hs1 Hs2]. split; [congruence|].
      destruct Hs2 as [Hs2|(chunks & wa & wb & db & e2 & ? & ? & ?)].
      * left. congruence.
      * right. exists chunks, wa, wb, w1, db, e2. repeat split; congruence.
    + destruct Hs as (chunks & wa & wb & wc & db & chain & Hcv & Hcr & -> & Hv & Hc).
      injection Hw' as Hv' Hr'.
      simpl in Hv.
      exists chunks, wa, wb, wc, db, chain. repeat split; try congruence.
      by apply (create_rag_chain_retriever P) in Hcr.
Qed.

(** ** The temporary file *)

Section TempFile.
Import Main.
Variable TEMP_DIR : string.
Variable P : Provider.

(** C2: whenever the request gets to write the upload into the temporary
    directory (the file could be opened for writing), the uploaded bytes are
    at [file_path] when the [try] block ends, and when the handler exits the
    file is gone, whatever the outcome of the request; no other path of the
    disk has changed. *)
Theorem upload_removes_temp_file (f : UploadFile) (name : string) (w : World) :
  content_type f = Some "application/pdf" →
  filename f = Some name →
  let file_path :=
    PosixPath.join TEMP_DIR (PyStr.replace "/" "_" (PyStr.replace ".." "_" name)) in
  (open_wb file_path w).1 = inr tt →
  fs (upload_try P f name file_path w).2 !! file_path = Some (NFile (file f)) ∧
  fs (upload_document TEMP_DIR P f w).2 !! file_path = None ∧
  fs (upload_document TEMP_DIR P f w).2 = delete file_path (fs w).
Proof.
  intros Hct Hname file_path Hopen.
  destruct (upload_document_opened TEMP_DIR P f name w Hct Hname Hopen)
    as (w' & Hr & _ & Hfs).
  fold file_path in Hr, Hfs. rewrite Hr. simpl. rewrite Hfs.
  pose proof (upload_try_fs P f name file_path w) as Ht.
  destruct (open_wb file_path w) as [[e|[]] w0]; [done|]. destruct Ht as [_ ->].
  by rewrite lookup_insert_eq, lookup_delete_eq.
Qed.

Lemma upload_try_empty f name path w :
  file f = [] → (open_wb path w).1 = inr tt →
  ∃ w1, upload_try P f name path w
        = (inl (HTTPException 400 "The uploaded PDF file is empty."), w1)
        ∧ session w1 = session w.
Proof.
  intros Hfile Hopen.
  pose proof (open_wb_session path w) as K1.
  unfold upload_try. unfold bind at 1.
  destruct (open_wb path w) as [[e|[]] w0]; [done|]. simpl in K1.
  unfold bind at 1. cbn [copyfileobj modify]. unfold bind at 1.
  unfold getsize, bind, gets. cbn [fs set_fs]. rewrite lookup_insert_eq, Hfile.
  cbn. eexists. split; [done|]. by rewrite <-K1.
Qed.

(** C4: an upload whose saved file has no bytes is answered with 400 and the
    message that the file is empty, and leaves both globals as they were. *)
Theorem upload_empty_file (f : UploadFile) (name : string) (w : World) :
  content_type f = Some "application/pdf" →
  filename f = Some name →
  file f = [] →
  (open_wb (PosixPath.join TEMP_DIR
              (PyStr.replace "/" "_" (PyStr.replace ".." "_" name))) w).1 = inr tt →
  (upload_document TEMP_DIR P f w).1
    = inl (HTTPException 400 "The uploaded PDF file is empty.") ∧
  http_status (upload_document TEMP_DIR P f w).1 = 400%Z ∧
  vector_store (upload_document TEMP_DIR P f w).2 = vector_store w ∧
  rag_chain (upload_document TEMP_DIR P f w).2 = rag_chain w.
Proof.
  intros Hct Hname Hfile Hopen.
  destruct (upload_document_opened TEMP_DIR P f name w Hct Hname Hopen)
    as (w' & Hr & Hs & _).
  destruct (upload_try_empty f name _ w Hfile Hopen) as (w1 & Ht & Hs1).
  rewrite Ht in Hr, Hs. simpl in Hr, Hs. rewrite Hr. simpl.
  rewrite Hs1 in Hs. injection Hs as Hv Hc. done.
Qed.

(** C6: an upload whose content type is not [application/pdf] is answered
    with 400 at once: the world is returned as it was, so nothing was written
    to disk, no step of the pipeline was called and the Session is
    unchanged. *)
Theorem upload_rejects_other_types (f : UploadFile) (w : World) :
  content_type f ≠ Some "application/pdf" →
  upload_document TEMP_DIR P f w
  = (inl (HTTPException 400 "Invalid file type. Only PDFs are allowed."), w).
Proof.
  intros Hct. unfold upload_document. by rewrite bool_decide_eq_true_2.
Qed.

End TempFile.

(** ** Asking *)

Section Ask.
Import Main.
Variable TEMP_DIR : string.

Lemma ask_question_keeps {X} (f : World → X) P b :
  (∀ l w, f (set_calls l w) = f w) → preserves f (ask_question P b).
Proof.
  intros H. unfold ask_question.
  apply preserves_bind; [apply preserves_gets|]. intros [chain|]; [|apply preserves_raise].
  apply preserves_try_except.
  - apply preserves_bind; [by apply log_keeps|]. intros _.
    apply preserves_bind; [apply preserves_gets|]. intros c.
    apply preserves_bind; [apply preserves_lift_result|]. intros r. apply preserves_ret.
  - intros e. destruct e; apply preserves_raise.
Qed.

(** C7: [/ask] never assigns the globals: after the request, successful or
    not, [vector_store] and [rag_chain] are what they were before it (and so
    are the disk and the vector index). *)
Theorem ask_keeps_session (P : Provider) (b : AskRequest) (w : World) :
  vector_store (ask_question P b w).2 = vector_store w ∧
  rag_chain (ask_question P b w).2 = rag_chain w ∧
  collections (ask_question P b w).2 = collections w ∧
  fs (ask_question P b w).2 = fs w.
Proof.
  repeat split; by apply (ask_question_keeps _ P b).
Qed.

Lemma ask_question_unset P b w :
  rag_chain w = None →
  ask_question P b w
  = (inl (HTTPException 400
            "No document has been processed. Please upload a PDF to /upload first."),
     w).
Proof. intros H. unfold ask_question, bind, gets. by rewrite H. Qed.

(** A request that is not a successful upload leaves an unset chain unset. *)
Lemma handle_keeps_unset P r w :
  rag_chain w = None →
  upload_succeeded (r, (handle TEMP_DIR P r w).1) = false →
  rag_chain (handle TEMP_DIR P r w).2 = None.
Proof.
  intros Hw Hr. destruct r as [|f|b]; simpl in *.
  - done.
  - pose proof (upload_document_session TEMP_DIR P f w) as Hs.
    destruct (upload_document TEMP_DIR P f w) as [[e|x] w']; simpl in *; [|done].
    destruct Hs as [-> _]. done.
  - by rewrite (ask_question_keeps rag_chain P b).
Qed.

Lemma serve_keeps_unset rs w :
  rag_chain w = None →
  forallb (λ ro, negb (upload_succeeded ro)) (serve TEMP_DIR rs w).1 = true →
  rag_chain (serve TEMP_DIR rs w).2 = None.
Proof.
  revert w. induction rs as [|[P r] rs IH]; intros w Hw Hall; simpl in *; [done|].
  pose proof (handle_keeps_unset P r w Hw) as Hh.
  destruct (handle TEMP_DIR P r w) as [o w1]. simpl in Hh.
  specialize (IH w1). destruct (serve TEMP_DIR rs w1) as [os w2]. simpl in *.
  apply andb_true_iff in Hall as [Ho Hos%IH]; [done|].
  apply Hh. by apply negb_true_iff.
Qed.

(** C5: as long as no upload has succeeded since the process started, the
    chain is unset, and [/ask] answers 400 with the message that no document
    has been processed; the world is returned as it was, so the chain was not
    invoked and no external call was made. *)
Theorem ask_before_upload (rs : list (Provider * request))
    (disk : gmap string node) (P : Provider) (b : AskRequest) :
  forallb (λ ro, negb (upload_succeeded ro)) (serve TEMP_DIR rs (boot disk)).1 = true →
  let w := (serve TEMP_DIR rs (boot disk)).2 in
  rag_chain w = None ∧
  ask_question P b w
  = (inl (HTTPException 400
            "No document has been processed. Please upload a PDF to /upload first."),
     w) ∧
  http_status (ask_question P b w).1 = 400%Z.
Proof.
  intros Hall w.
  assert (Hw : rag_chain w = None) by by apply serve_keeps_unset.
  split; [done|]. by rewrite (ask_question_unset P b w Hw).
Qed.

(** The quota message names the quota. *)
Lemma quota_detail_mentions_quota m :
  PyStr.contains "quota" (quota_detail m) = true.
Proof. exact (contains_intro "quota" "Google API " _). Qed.

Lemma open_wb_raises_other path w e w0 :
  open_wb path w = (inl e, w0) → ∃ c t, e = OtherException c t.
Proof.
  unfold open_wb, bind, log, modify, gets. cbn.
  destruct (String.eqb path ""); [intros [= <- _]; eauto|].
  destruct (fs w !! path) as [[d|n]|]; cbn; intros [= <-]; eauto.
Qed.

(** C3: a quota error of the provider that reaches the handler, out of the
    upload pipeline or out of the chain an ask invokes, is answered with 400
    and a message that names the quota, not with 500. *)
Theorem quota_error_is_400 (P : Provider) (r : request) (w : World) (m : string) :
  quota_error TEMP_DIR P r w m →
  (handle TEMP_DIR P r w).1 = inl (HTTPException 400 (quota_detail m)) ∧
  http_status (handle TEMP_DIR P r w).1 = 400%Z ∧
  PyStr.contains "quota" (quota_detail m) = true.
Proof.
  intros Hq.
  assert (H : (handle TEMP_DIR P r w).1 = inl (HTTPException 400 (quota_detail m))).
  { destruct Hq as [f name w w1 m Hct Hname Htry|b chain w m Hc Hinv]; simpl.
    - set (file_path := PosixPath.join _ _) in Htry.
      assert (Hopen : (open_wb file_path w).1 = inr tt).
      { pose proof (upload_try_fs P f name file_path w) as Hf.
        destruct (open_wb file_path w) as [[e|[]] w0] eqn:Ho; [|done].
        destruct Hf as [Hf _]. rewrite Hf in Htry.
        destruct (open_wb_raises_other _ _ _ _ Ho) as (c & t & ->). done. }
      destruct (upload_document_opened TEMP_DIR P f name w Hct Hname Hopen)
        as (w' & Hr & _).
      fold file_path in Hr. by rewrite Hr, Htry.
    - unfold ask_question, bind, gets, try_except, log, modify. rewrite Hc. cbn.
      by rewrite Hinv. }
  rewrite H. split; [done|]. split; [done|]. apply quota_detail_mentions_quota.
Qed.

(** The case the specification names for uploads: the embedding call of the
    pipeline raises the quota error.  The helpers re-raise it as it is, so it
    reaches the handler. *)
Lemma embedding_quota_reaches_handler P f name w pages chunks m :
  content_type f = Some "application/pdf" →
  filename f = Some name →
  let file_path :=
    PosixPath.join TEMP_DIR (PyStr.replace "/" "_" (PyStr.replace ".." "_" name)) in
  (open_wb file_path w).1 = inr tt →
  file f ≠ [] →
  pdf_load P file_path (file f) = inr pages →
  split_documents P 1000 200 pages = inr chunks →
  embeddings_init P "models/embedding-001" = None →
  embed_documents P "models/embedding-001" (map page_content chunks)
    = inl (ResourceExhausted m) →
  quota_error TEMP_DIR P (PostUpload f) w m.
Proof.
  intros Hct Hname file_path Hopen Hdata Hload Hsplit Hinit Hembed.
  pose proof (open_wb_cases file_path w) as Ho.
  destruct (open_wb file_path w) as [[e|[]] w0] eqn:Eo; [done|].
  destruct Ho as [_ Hfs].
  destruct (file f) as [|b data] eqn:Hf; [done|].
  eapply (quota_in_upload TEMP_DIR P f name w); [done|done|].
  fold file_path. unfold upload_try. unfold bind at 1. rewrite Eo.
  unfold bind, copyfileobj, modify, getsize, gets, load_and_split_pdf,
    create_vector_store, try_except, log, lift_result, lift_ctor, uuid4_str,
    Chroma_init, ret, raise.
  rewrite Hf.
  repeat first
    [ rewrite lookup_insert_eq | rewrite Hload | rewrite Hsplit
    | rewrite Hinit | rewrite Hembed | progress cbn | progress unfold bind ].
  reflexivity.
Qed.

End Ask.

(** ** Populating the vector index *)

Section VectorStore.
Import Main.
Variable P : Provider.

Lemma fresh_ids_run docs w :
  fresh_ids P docs w
  = (inr (map (uuid4 P) (seq (uuid_next w) (length docs))),
     set_uuid_next (uuid_next w + length docs) w).
Proof.
  revert w. induction docs as [|d docs IH]; intros w.
  - simpl. rewrite Nat.add_0_r. by destruct w.
  - simpl. unfold bind at 1. unfold uuid4_str at 1. unfold bind at 1.
    rewrite IH. unfold set_uuid_next. cbn. by rewrite Nat.add_succ_r.
Qed.

(** The calls [create_vector_store] makes, by the point it gets to. *)
Lemma create_vector_store_calls chunks w :
  let model := "models/embedding-001" in
  let name := "pdf_chat_" +:+ uuid4 P (uuid_next w) in
  let documents := map page_content chunks in
  let w' := (create_vector_store P chunks w).2 in
  match embeddings_init P model with
  | Some _ => calls w' = CallEmbeddingsInit model :: calls w
  | None =>
      match embed_documents P model documents with
      | inl _ =>
          calls w' = [CallEmbedDocuments model documents;
                      CallCollectionCreate name;
                      CallEmbeddingsInit model] ++ calls w
      | inr embeddings =>
          calls w' = [CallCollectionAdd name
                        (map (uuid4 P) (seq (S (uuid_next w)) (length chunks)))
                        embeddings documents (map metadata chunks);
                      CallEmbedDocuments model documents;
                      CallCollectionCreate name;
                      CallEmbeddingsInit model] ++ calls w
      end
  end.
Proof.
  intros model name documents w'. subst w' name documents model.
  unfold create_vector_store, try_except, bind, log, modify, lift_ctor,
    lift_result, Chroma_init, uuid4_str, gets, collection_add, ret, raise.
  cbn beta.
  destruct (embeddings_init P "models/embedding-001") as [e|]; [done|].
  destruct (embed_documents P "models/embedding-001" (map page_content chunks))
    as [e|embeddings]; cbn.
  - by repeat case_match.
  - rewrite fresh_ids_run, map_id, !length_map.
    destruct (collections w !! ("pdf_chat_" +:+ uuid4 P (uuid_next w))); cbn;
      rewrite ?lookup_insert_eq; repeat case_match; simplify_eq; try done;
      unfold modify in *; by simplify_eq.
Qed.

(** The vector index after [create_vector_store], when the name drawn for
    the collection is not in use: nothing changes if the embedding client
    cannot be built; otherwise every other collection is as before, and the
    new one is empty (a later step raised) or holds exactly the entries of
    this call. *)
Lemma create_vector_store_collections chunks w :
  let model := "models/embedding-001" in
  let name := "pdf_chat_" +:+ uuid4 P (uuid_next w) in
  let ids := map (uuid4 P) (seq (S (uuid_next w)) (length chunks)) in
  let w' := (create_vector_store P chunks w).2 in
  collections w !! name = None →
  match embeddings_init P model with
  | Some _ => collections w' = collections w
  | None =>
      (∀ k, k ≠ name → collections w' !! k = collections w !! k) ∧
      match embed_documents P model (map page_content chunks) with
      | inl _ => collections w' !! name = Some []
      | inr embeddings =>
          collections w' !! name = Some [] ∨
          collections w' !! name
          = Some (make_entries ids embeddings (map page_content chunks)
                    (map metadata chunks))
      end
  end.
Proof.
  intros model name ids w' Hnew. subst w' ids model.
  unfold create_vector_store, try_except, bind, log, modify, lift_ctor,
    lift_result, Chroma_init, uuid4_str, gets, collection_add, ret, raise.
  cbn beta.
  destruct (embeddings_init P "models/embedding-001") as [e|]; [done|].
  destruct (embed_documents P "models/embedding-001" (map page_content chunks))
    as [e|embeddings]; cbn; fold name; rewrite Hnew; cbn.
  - split; [intros k Hk; by rewrite lookup_insert_ne|].
    by rewrite lookup_insert_eq.
  - rewrite fresh_ids_run, map_id, !length_map. cbn. rewrite lookup_insert_eq.
    repeat case_match; simplify_eq; cbn.
    all: try (split; [intros k Hk; by rewrite lookup_insert_ne|];
              left; by rewrite lookup_insert_eq).
    unfold modify in *; simplify_eq; cbn.
    split; [intros k Hk; by rewrite !lookup_insert_ne|].
    right. by rewrite lookup_insert_eq.
Qed.

(** C8: under the invariant of the embedding client (one vector per input
    string), the four sequences of every [add] call that [create_vector_store]
    makes have the length of [chunks]; the ids are the UUIDs drawn for this
    call, one new draw per chunk; and the collection they go to is created by
    this call under a name drawn for it, so that (the name being unused, as
    UUIDs are) it holds nothing but the entries of this call and every
    collection that existed before is as it was. *)
Theorem create_vector_store_add_call (chunks : list Document) (w : World)
    (new : list call) (name : string) (ids : list string)
    (embeddings : list Embedding) (documents : list string)
    (metadatas : list (gmap string string)) :
  (∀ model texts vs, embed_documents P model texts = inr vs →
                     length vs = length texts) →
  collections w !! ("pdf_chat_" +:+ uuid4 P (uuid_next w)) = None →
  calls (create_vector_store P chunks w).2 = new ++ calls w →
  In (CallCollectionAdd name ids embeddings documents metadatas) new →
  length ids = length chunks ∧
  length embeddings = length chunks ∧
  length documents = length chunks ∧
  length metadatas = length chunks ∧
  ids = map (uuid4 P) (seq (S (uuid_next w)) (length chunks)) ∧
  name = "pdf_chat_" +:+ uuid4 P (uuid_next w) ∧
  In (CallCollectionCreate name) new ∧
  (∀ k, k ≠ name →
        collections (create_vector_store P chunks w).2 !! k = collections w !! k) ∧
  (collections (create_vector_store P chunks w).2 !! name = Some [] ∨
   collections (create_vector_store P chunks w).2 !! name
   = Some (make_entries ids embeddings documents metadatas)).
Proof.
  intros Hembed Hfresh Hcalls Hin.
  pose proof (create_vector_store_calls chunks w) as Hc.
  pose proof (create_vector_store_collections chunks w Hfresh) as Hcol.
  cbn zeta in Hc, Hcol. rewrite Hcalls in Hc.
  destruct (embeddings_init P "models/embedding-001") as [e|].
  { apply (app_inv_tail _ _ [_]) in Hc. subst new.
    destruct Hin as [|[]]; discriminate. }
  destruct Hcol as [Hother Hname].
  destruct (embed_documents P "models/embedding-001" (map page_content chunks))
    as [e|embs] eqn:Hemb; apply app_inv_tail in Hc; subst new.
  { destruct Hin as [|[|[|[]]]]; discriminate. }
  destruct Hin as [Heq|[|[|[|[]]]]]; try discriminate.
  injection Heq as <- <- <- <- <-.
  rewrite !length_map, length_seq, (Hembed _ _ _ Hemb), length_map.
  repeat split; try done. simpl. auto.
Qed.

End VectorStore.

(** ** The typing effect of the browser UI *)

Section Typing.
Import PyStr GradioUI.

Lemma length_slice_to k s :
  String.length (slice_to k s) = Nat.min k (String.length s).
Proof.
  revert s. induction k as [|k IH]; intros [|c s]; simpl; try done.
  by rewrite IH.
Qed.

Lemma slice_to_all k s : (String.length s ≤ k)%nat → slice_to k s = s.
Proof.
  revert s. induction k as [|k IH]; intros [|c s] H; simpl in *; try done; try lia.
  rewrite IH; [done|lia].
Qed.

Lemma slice_to_prefix k s : ∃ rest, s = slice_to k s +:+ rest.
Proof.
  revert s. induction k as [|k IH]; intros s.
  - by exists s.
  - destruct s as [|c s]; [by exists ""|].
    destruct (IH s) as [rest Hrest]. exists rest. simpl.
    change (String c s = String c (slice_to k s +:+ rest)). by rewrite <-Hrest.
Qed.

(** The values [ask_question] yields for an answer: the [k]-th one is the
    first [3k+3] characters. *)
Lemma typing_lookup answer k :
  map (λ i, slice_to (i + 3) answer) (range 0 (String.length answer) 3) !! k
  = if decide (k < (String.length answer + 2) / 3)%nat
    then Some (slice_to (k * 3 + 3) answer) else None.
Proof.
  unfold range. destruct (String.length answer) as [|n] eqn:Hl.
  - simpl. by destruct k.
  - replace (S n <=? 0)%nat with false by done.
    rewrite !list_lookup_fmap.
    replace ((S n + 2) / 3)%nat with ((S n - 0 - 1) / 3 + 1)%nat.
    2:{ replace (S n + 2)%nat with ((S n - 0 - 1) + 1 * 3)%nat by lia.
        by rewrite Nat.div_add. }
    case_decide as Hk.
    + by rewrite lookup_seq_lt.
    + by rewrite lookup_seq_ge by lia.
Qed.

Lemma typing_length answer :
  length (map (λ i, slice_to (i + 3) answer) (range 0 (String.length answer) 3))
  = ((String.length answer + 2) / 3)%nat.
Proof.
  unfold range. destruct (String.length answer) as [|n]; [done|].
  replace (S n <=? 0)%nat with false by done.
  rewrite !length_map, length_seq.
  replace (S n + 2)%nat with ((S n - 0 - 1) + 1 * 3)%nat by lia.
  by rewrite Nat.div_add.
Qed.

(** C10: for a non-empty answer of a successful [/ask] response, the values
    [ask_question] yields are prefixes of the answer, each strictly longer
    than the ones before it, and the last of them is the whole answer; for an
    empty answer it yields nothing, so that [handle_user_question] sends the
    chat area the row of the question once, with no answer in it, and no
    further update. *)
Theorem typing_effect_prefixes (post : string → api_outcome) (question : string)
    (history : list (string * option string)) (body : gmap string string)
    (answer : string) :
  question ≠ "" →
  post question = Answered body →
  body !! "answer" = Some answer →
  let ys := ask_question post question history in
  match answer with
  | EmptyString =>
      ys = [] ∧
      handle_user_question post question history
      = [(history ++ [(question, None)], "")]
  | String _ _ =>
      (∀ k y, ys !! k = Some y → ∃ rest, answer = y +:+ rest) ∧
      (∀ i j y z, (i < j)%nat → ys !! i = Some y → ys !! j = Some z →
                  (String.length y < String.length z)%nat) ∧
      last ys = Some answer
  end.
Proof.
  intros Hq%String.eqb_neq Hpost Hbody ys.
  assert (Hys : ∀ h, ask_question post question h
                = map (λ i, slice_to (i + 3) answer) (range 0 (String.length answer) 3)).
  { intros h. unfold ask_question. by rewrite Hq, Hpost, Hbody. }
  destruct answer as [|c rest] eqn:Ha.
  - unfold handle_user_question. subst ys. by rewrite !Hys.
  - rewrite <-Ha in *. subst ys. rewrite Hys.
    assert (HL : (0 < String.length answer)%nat) by (rewrite Ha; simpl; lia).
    clear Ha Hys. set (L := String.length answer) in *.
    pose proof (Nat.Div0.mul_div_le (L + 2) 3) as Hle.
    pose proof (Nat.mul_succ_div_gt (L + 2) 3) as Hgt.
    repeat split.
    + intros k y. rewrite typing_lookup. case_decide; [|done].
      intros [= <-]. apply slice_to_prefix.
    + intros i j y z Hij. rewrite !typing_lookup. fold L.
      repeat case_decide; try done. intros [= <-] [= <-].
      rewrite !length_slice_to. fold L. lia.
    + rewrite last_lookup, typing_length, typing_lookup. fold L.
      case_decide; [|lia]. f_equal. apply slice_to_all. fold L. lia.
Qed.

End Typing.

(** ** The theorems at work on concrete requests *)

Section Instances.
Import Main Examples.

(** An upload that fails (the language-model client cannot be built) after
    it has written [notes.pdf]: the file is gone at the end. *)
Lemma upload_removes_temp_file_witness :
  content_type pdf_part = Some "application/pdf" ∧
  filename pdf_part = Some "notes.pdf" ∧
  (open_wb "/tmp/tmpk3v9x1qa/notes.pdf" (boot ∅)).1 = inr tt ∧
  fs (upload_try provider_llm_down pdf_part "notes.pdf"
        "/tmp/tmpk3v9x1qa/notes.pdf" (boot ∅)).2 !! "/tmp/tmpk3v9x1qa/notes.pdf"
  = Some (NFile (file pdf_part)) ∧
  fs (upload_document tmp provider_llm_down pdf_part (boot ∅)).2
    !! "/tmp/tmpk3v9x1qa/notes.pdf" = None.
Proof.
  pose proof (upload_removes_temp_file tmp provider_llm_down pdf_part "notes.pdf"
                (boot ∅) eq_refl eq_refl eq_refl) as (H1 & H2 & _).
  exact (conj eq_refl (conj eq_refl (conj eq_refl (conj H1 H2)))).
Defined.

(** The embedding call runs out of quota during an upload. *)
Lemma quota_error_is_400_witness :
  quota_error tmp provider_quota (PostUpload pdf_part) (boot ∅)
    "Quota exceeded for embed requests." ∧
  http_status (handle tmp provider_quota (PostUpload pdf_part) (boot ∅)).1 = 400%Z.
Proof.
  assert (H : quota_error tmp provider_quota (PostUpload pdf_part) (boot ∅)
                "Quota exceeded for embed requests.").
  { eapply (quota_in_upload tmp provider_quota pdf_part "notes.pdf"); reflexivity. }
  split; [exact H|].
  exact (proj1 (proj2 (quota_error_is_400 tmp provider_quota _ _ _ H))).
Defined.

Lemma upload_empty_file_witness :
  file empty_part = [] ∧
  (upload_document tmp provider_up empty_part (boot ∅)).1
  = inl (HTTPException 400 "The uploaded PDF file is empty.").
Proof.
  split; [reflexivity|].
  exact (proj1 (upload_empty_file tmp provider_up empty_part "empty.pdf" (boot ∅)
                  eq_refl eq_refl eq_refl eq_refl)).
Defined.

(** A failed upload, a rejected upload and a liveness check, then a question. *)
Lemma ask_before_upload_witness :
  let rs := [(provider_llm_down, PostUpload pdf_part);
             (provider_up, PostUpload text_part);
             (provider_up, GetRoot)] in
  forallb (λ ro, negb (upload_succeeded ro)) (serve tmp rs (boot ∅)).1 = true ∧
  http_status
    (ask_question provider_up (mkAskRequest "What is Rocq?")
       (serve tmp rs (boot ∅)).2).1 = 400%Z.
Proof.
  intros rs. split; [reflexivity|].
  exact (proj2 (proj2 (ask_before_upload tmp rs ∅ provider_up
                         (mkAskRequest "What is Rocq?") eq_refl))).
Defined.

Lemma upload_rejects_other_types_witness :
  content_type text_part ≠ Some "application/pdf" ∧
  upload_document tmp provider_up text_part (boot ∅)
  = (inl (HTTPException 400 "Invalid file type. Only PDFs are allowed."), boot ∅).
Proof.
  assert (H : content_type text_part ≠ Some "application/pdf") by discriminate.
  split; [exact H|].
  exact (upload_rejects_other_types tmp provider_up text_part (boot ∅) H).
Defined.

Lemma provider_up_embeds_each model texts vs :
  embed_documents provider_up model texts = inr vs → length vs = length texts.
Proof. intros [= <-]. apply length_map. Qed.

Lemma create_vector_store_add_call_witness :
  let add := CallCollectionAdd "pdf_chat_id-0" ["id-1"; "id-2"]
               [[3; 1; 4]; [3; 1; 4]]%Z (map page_content two_pages)
               (map metadata two_pages) in
  let new := [add;
              CallEmbedDocuments "models/embedding-001" (map page_content two_pages);
              CallCollectionCreate "pdf_chat_id-0";
              CallEmbeddingsInit "models/embedding-001"] in
  calls (create_vector_store provider_up two_pages (boot ∅)).2 = new ++ calls (boot ∅) ∧
  In add new ∧
  length ["id-1"; "id-2"] = length two_pages ∧
  length [[3; 1; 4]; [3; 1; 4]]%Z = length two_pages.
Proof.
  intros add new.
  assert (Hc : calls (create_vector_store provider_up two_pages (boot ∅)).2
               = new ++ calls (boot ∅)) by reflexivity.
  assert (Hin : In add new) by (left; reflexivity).
  pose proof (create_vector_store_add_call provider_up two_pages (boot ∅) new
                _ _ _ _ _ provider_up_embeds_each eq_refl Hc Hin)
    as (H1 & H2 & _).
  exact (conj Hc (conj Hin (conj H1 H2))).
Defined.

Lemma typing_effect_prefixes_witness :
  let post := λ _ : string, GradioUI.Answered (<["answer" := "abcdefgh"]> ∅) in
  "What?" ≠ "" ∧
  post "What?" = GradioUI.Answered (<["answer" := "abcdefgh"]> ∅) ∧
  (<["answer" := "abcdefgh"]> ∅ : gmap string string) !! "answer" = Some "abcdefgh" ∧
  GradioUI.ask_question post "What?" [] = ["abc"; "abcdef"; "abcdefgh"] ∧
  last (GradioUI.ask_question post "What?" []) = Some "abcdefgh".
Proof.
  intros post.
  assert (Hq : "What?" ≠ "") by discriminate.
  assert (Hb : (<["answer" := "abcdefgh"]> ∅ : gmap string string) !! "answer"
               = Some "abcdefgh") by reflexivity.
  pose proof (typing_effect_prefixes post "What?" [] _ "abcdefgh" Hq eq_refl Hb)
    as (_ & _ & Hlast).
  exact (conj Hq (conj eq_refl (conj Hb (conj eq_refl Hlast)))).
Defined.

End Instances.

(** * Further properties of the code *)

(** ** File names *)

Section FileNames.
Import PyStr PosixPath GradioUpload.

Local Arguments Ascii.eqb : simpl never.

Lemma contains_tail sub c s : contains sub (String c s) = false → contains sub s = false.
Proof. rewrite contains_unfold. by intros [_ ?]%orb_false_iff. Qed.

Lemma contains_head sub s : contains sub s = false → startswith sub s = false.
Proof. rewrite contains_unfold. by intros [? _]%orb_false_iff. Qed.

Lemma replace_dots_id s : contains ".." s = false → replace ".." "_" s = s.
Proof.
  induction s as [|c s IH]; [done|]. intros H.
  rewrite replace_dots_copy by by apply contains_head.
  by rewrite IH by by apply contains_tail in H.
Qed.

Lemma replace_slash_id s : contains "/" s = false → replace "/" "_" s = s.
Proof.
  induction s as [|c s IH]; [done|]. intros H.
  rewrite replace_slash_cons, IH by by apply contains_tail in H.
  apply contains_head in H. cbn in H. rewrite Ascii.eqb_sym in H.
  by destruct (Ascii.eqb c "/").
Qed.

Lemma sanitize_plain name :
  contains "/" name = false → contains ".." name = false →
  replace "/" "_" (replace ".." "_" name) = name.
Proof. intros Hs Hd. by rewrite (replace_dots_id _ Hd), (replace_slash_id _ Hs). Qed.

(** X1: a filename with no slash and no pair of dots is used as it is: the
    two replacements of [upload_document] change nothing in it. *)
Theorem sanitize_keeps_plain_names (name : string) :
  contains "/" name = false →
  contains ".." name = false →
  replace "/" "_" (replace ".." "_" name) = name.
Proof. apply sanitize_plain. Qed.

(** X2: the two replacements are idempotent: a name that went through them
    once goes through them unchanged, so the path of an upload is the same
    whether the client sends the original name or the sanitized one. *)
Theorem sanitize_idempotent (TEMP_DIR name : string) :
  let safe := replace "/" "_" (replace ".." "_" name) in
  replace "/" "_" (replace ".." "_" safe) = safe ∧
  join TEMP_DIR (replace "/" "_" (replace ".." "_" safe)) = join TEMP_DIR safe.
Proof.
  intros safe.
  assert (H : replace "/" "_" (replace ".." "_" safe) = safe).
  { apply sanitize_plain; [apply replace_slash_clean|].
    unfold safe. rewrite replace_slash_dots. apply replace_dots_clean. }
  by rewrite H.
Qed.

Lemma basename_cons c p :
  basename (String c p) = if contains "/" (String c p) then basename p else String c p.
Proof. done. Qed.

Lemma basename_no_slash p : contains "/" (basename p) = false.
Proof.
  induction p as [|c p IH]; [done|]. rewrite basename_cons.
  by destruct (contains "/" (String c p)) eqn:E.
Qed.

Lemma basename_plain p : contains "/" p = false → basename p = p.
Proof. destruct p as [|c p]; [done|]. intros H. by rewrite basename_cons, H. Qed.

Lemma basename_dir_ends_with_slash p :
  contains "/" p = true → ∃ dir, p = dir +:+ "/" +:+ basename p.
Proof.
  induction p as [|c p IH]; [done|]. intros H. rewrite basename_cons, H.
  destruct (contains "/" p) eqn:E.
  - destruct (IH eq_refl) as [dir Hdir]. exists (String c dir).
    change (String c p = String c (dir +:+ "/" +:+ basename p)). by rewrite <-Hdir.
  - rewrite contains_unfold, E, orb_false_r in H. cbn in H.
    destruct (Ascii.eqb_spec "/" c) as [<-|]; [|done].
    exists "". by rewrite (basename_plain _ E).
Qed.

(** X3: the filename the UI sends, [os.path.basename(file_obj.name)], is what
    follows the last slash of the path: without a slash the whole path, and
    else the path is a directory part, a slash and the filename.  It holds no
    slash itself, so that the slash replacement of [upload_document] never
    changes a name that comes from the UI. *)
Theorem basename_is_last_component (p : string) :
  contains "/" (basename p) = false ∧
  replace "/" "_" (basename p) = basename p ∧
  if contains "/" p then ∃ dir, p = dir +:+ "/" +:+ basename p
  else basename p = p.
Proof.
  split; [apply basename_no_slash|]. split.
  - apply replace_slash_id, basename_no_slash.
  - destruct (contains "/" p) eqn:E; [by apply basename_dir_ends_with_slash|].
    by apply basename_plain.
Qed.

End FileNames.

(** ** A successful upload, step by step *)

Section UploadRun.
Import Main.
Variable TEMP_DIR : string.
Variable P : Provider.

Lemma bind_inr {A B} (m : M A) (k : A → M B) w b w2 :
  bind m k w = (inr b, w2) → ∃ a w1, m w = (inr a, w1) ∧ k a w1 = (inr b, w2).
Proof.
  unfold bind. destruct (m w) as [[e|a] w1]; [done|]. intros H. by exists a, w1.
Qed.

Lemma reraise_inr {A} (m : M A) w a w1 :
  try_except m (λ e, raise e) w = (inr a, w1) → m w = (inr a, w1).
Proof. unfold try_except. by destruct (m w) as [[e|a'] w']. Qed.

Lemma open_wb_inr path w u w1 :
  open_wb path w = (inr u, w1) →
  path ≠ "" ∧
  w1 = set_fs (<[path := NFile []]> (fs w)) (set_calls (CallOpenWrite path :: calls w) w).
Proof.
  unfold open_wb, bind, log, modify, gets. cbn.
  destruct (String.eqb_spec path "") as [->|Hne]; [done|].
  destruct (fs w !! path) as [[d|n]|]; cbn; intros [= <-]; done.
Qed.

Lemma load_and_split_pdf_inr path w chunks w1 :
  load_and_split_pdf P path w = (inr chunks, w1) →
  ∃ d pages,
    fs w !! path = Some (NFile d) ∧
    pdf_load P path d = inr pages ∧
    split_documents P 1000 200 pages = inr chunks ∧
    w1 = set_calls (CallPdfLoad path :: calls w) w.
Proof.
  intros H%reraise_inr. revert H.
  unfold bind, log, modify, gets, lift_result, ret, raise. cbn.
  destruct (fs w !! path) as [[d|n]|]; [|done..].
  destruct (pdf_load P path d) as [e|pages] eqn:Hl; [done|].
  destruct (split_documents P 1000 200 pages) as [e|cs] eqn:Hs; [done|].
  intros [= <- <-]. by exists d, pages.
Qed.

Lemma create_vector_store_inr chunks w db w1 :
  create_vector_store P chunks w = (inr db, w1) →
  let model := "models/embedding-001" in
  let cname := "pdf_chat_" +:+ uuid4 P (uuid_next w) in
  let ids := map (uuid4 P) (seq (S (uuid_next w)) (length chunks)) in
  let documents := map page_content chunks in
  let metadatas := map metadata chunks in
  ∃ embeddings,
    embeddings_init P model = None ∧
    embed_documents P model documents = inr embeddings ∧
    length embeddings = length chunks ∧
    NoDup ids ∧
    db = mkChroma cname model ∧
    w1 = mkWorld (fs w)
           (<[cname := default [] (collections w !! cname)
                       ++ make_entries ids embeddings documents metadatas]>
              (collections w))
           (vector_store w) (rag_chain w)
           (S (uuid_next w) + length chunks)
           ([CallCollectionAdd cname ids embeddings documents metadatas;
             CallEmbedDocuments model documents;
             CallCollectionCreate cname;
             CallEmbeddingsInit model] ++ calls w).
Proof.
  intros H%reraise_inr model cname ids documents metadatas. revert H.
  unfold bind, log, modify, lift_ctor, lift_result, Chroma_init, uuid4_str,
    gets, collection_add, ret, raise.
  cbn beta. fold model.
  destruct (embeddings_init P model) as [e|]; [done|].
  fold documents.
  destruct (embed_documents P model documents) as [e|embeddings].
  { cbn. by repeat case_match. }
  cbn. rewrite fresh_ids_run, map_id. subst documents. rewrite !length_map.
  cbn. fold cname.
  destruct (collections w !! cname) as [l0|] eqn:Hc; cbn;
    rewrite ?lookup_insert_eq, ?Hc, !length_seq, !Nat.eqb_refl, !andb_true_r;
    fold ids;
    (destruct (Nat.eqb_spec (length embeddings) (length chunks)) as [Hlen|]; [|done]);
    cbn;
    (destruct (bool_decide (NoDup ids)) eqn:Hnd; [|done]);
    apply bool_decide_eq_true in Hnd; cbn;
    (destruct (existsb _ ids); [done|]);
    cbn; intros [= <- <-]; exists embeddings; repeat split; try done.
  unfold set_collections. cbn. by rewrite insert_insert_eq.
Qed.

Lemma create_rag_chain_inr db w chain w1 :
  create_rag_chain P db w = (inr chain, w1) →
  llm_init P "gemini-pro" 0 = None ∧
  chain = mkChain "gemini-pro" 0
            [("system", system_prompt); ("human", "{input}")] db ∧
  w1 = set_calls (CallLLMInit "gemini-pro" 0 :: calls w) w.
Proof.
  intros H%reraise_inr. revert H.
  unfold bind, log, modify, lift_ctor, ret, raise. cbn.
  destruct (llm_init P "gemini-pro" 0); [done|]. by intros [= <- <-].
Qed.

(** Everything a successful [try] block of an upload went through, and the
    world it leaves. *)
Lemma upload_try_success f name path w x w1 :
  upload_try P f name path w = (inr x, w1) →
  let model := "models/embedding-001" in
  let cname := "pdf_chat_" +:+ uuid4 P (uuid_next w) in
  ∃ pages chunks embeddings,
    let ids := map (uuid4 P) (seq (S (uuid_next w)) (length chunks)) in
    let documents := map page_content chunks in
    let metadatas := map metadata chunks in
    let db := mkChroma cname model in
    let chain := mkChain "gemini-pro" 0
                   [("system", system_prompt); ("human", "{input}")] db in
    path ≠ "" ∧ file f ≠ [] ∧
    pdf_load P path (file f) = inr pages ∧
    split_documents P 1000 200 pages = inr chunks ∧
    embed_documents P model documents = inr embeddings ∧
    length embeddings = length chunks ∧
    NoDup ids ∧
    x = <["message" := "Successfully processed '" +:+ name
                        +:+ "'. Ready to answer questions."]> ∅ ∧
    w1 = mkWorld (<[path := NFile (file f)]> (fs w))
           (<[cname := default [] (collections w !! cname)
                       ++ make_entries ids embeddings documents metadatas]>
              (collections w))
           (Some db) (Some chain)
           (S (uuid_next w) + length chunks)
           ([CallLLMInit "gemini-pro" 0;
             CallCollectionAdd cname ids embeddings documents metadatas;
             CallEmbedDocuments model documents;
             CallCollectionCreate cname;
             CallEmbeddingsInit model;
             CallPdfLoad path;
             CallOpenWrite path] ++ calls w).
Proof.
  intros H model cname. unfold upload_try in H.
  apply bind_inr in H as ([] & wa & Ho & H).
  apply open_wb_inr in Ho as [Hne ->].
  apply bind_inr in H as ([] & wb & Hc & H).
  unfold copyfileobj, modify in Hc. injection Hc as <-.
  apply bind_inr in H as (n & wc & Hg & H).
  unfold getsize, bind, gets in Hg. cbn in Hg. rewrite lookup_insert_eq in Hg.
  cbn in Hg. injection Hg as <- <-.
  destruct (file f) as [|b0 data] eqn:Hfile; [done|].
  cbn [length Nat.eqb] in H.
  apply bind_inr in H as (chunks & wd & Hl & H).
  apply load_and_split_pdf_inr in Hl as (d & pages & Hd & Hload & Hsplit & ->).
  cbn in Hd. rewrite lookup_insert_eq in Hd. injection Hd as <-.
  apply bind_inr in H as (db & we & Hv & H).
  apply create_vector_store_inr in Hv
    as (embeddings & Hinit & Hemb & Hlen & Hnd & -> & ->).
  apply bind_inr in H as ([] & wf & Hm & H). unfold modify in Hm. injection Hm as <-.
  apply bind_inr in H as (vs & wg & Hgv & H). unfold gets in Hgv. injection Hgv as <- <-.
  cbn in H.
  apply bind_inr in H as (chain & wh & Hr & H).
  apply create_rag_chain_inr in Hr as (Hllm & -> & ->).
  apply bind_inr in H as ([] & wi & Hm & H). unfold modify in Hm. injection Hm as <-.
  injection H as <- <-.
  exists pages, chunks, embeddings. cbn.
  rewrite insert_insert_eq. repeat split; done.
Qed.

End UploadRun.

Section UploadOutcome.
Import Main.
Variable TEMP_DIR : string.
Variable P : Provider.

Lemma try_finally_inr {A} (body : M A) cleanup w a w' :
  try_finally body cleanup w = (inr a, w') →
  ∃ w1, body w = (inr a, w1) ∧ cleanup w1 = (inr tt, w').
Proof.
  unfold try_finally. destruct (body w) as [r w1].
  destruct (cleanup w1) as [[e|[]] w2] eqn:Hc; [done|].
  intros [= -> ->]. by exists w1.
Qed.

Lemma upload_handled_inr (body : M (gmap string string)) w x w1 :
  try_except body upload_except w = (inr x, w1) → body w = (inr x, w1).
Proof.
  unfold try_except. destruct (body w) as [[e|x'] w']; [|done].
  by destruct (upload_except_raises e w') as [e' ->].
Qed.

(** A successful request: the part was a PDF with a filename, its [try]
    block succeeded, and the [finally] clause removed the file. *)
Lemma upload_document_inr f w x w' :
  upload_document TEMP_DIR P f w = (inr x, w') →
  ∃ name w1,
    content_type f = Some "application/pdf" ∧
    filename f = Some name ∧
    let file_path :=
      PosixPath.join TEMP_DIR (PyStr.replace "/" "_" (PyStr.replace ".." "_" name)) in
    upload_try P f name file_path w = (inr x, w1) ∧
    w' = set_fs (delete file_path (fs w1))
           (set_calls (CallRemove file_path :: calls w1) w1).
Proof.
  unfold upload_document. case_bool_decide as Hct; [done|].
  destruct (filename f) as [name|]; [|by intros (w1 & [=]%upload_handled_inr & _)%try_finally_inr].
  intros (w1 & Ht%upload_handled_inr & Hc)%try_finally_inr.
  exists name, w1. repeat split; try done.
  destruct (upload_try_success P f name _ w x w1 Ht)
    as (pages & chunks & embeddings & Hne & _ & _ & _ & _ & _ & _ & _ & Hw1).
  cbn zeta in Hw1.
  rewrite (upload_cleanup_file _ (file f) w1 Hne) in Hc.
  - by injection Hc as <-.
  - rewrite Hw1. cbn. by rewrite lookup_insert_eq.
Qed.

End UploadOutcome.

(** ** The Session across an upload, step by step *)

Section SessionEffect.
Import Main UploadSteps.
Variable TEMP_DIR : string.
Variable P : Provider.

(** The [try] block is the steps up to the new store, the assignment of
    [vector_store], [create_rag_chain] on what was assigned, the assignment
    of [rag_chain] and the [return]. *)
Lemma upload_try_until_store f name path w :
  upload_try P f name path w =
  match upload_until_store P f path w with
  | (inl e, w1) => (inl e, w1)
  | (inr db, w1) =>
      match create_rag_chain P db (set_vector_store (Some db) w1) with
      | (inl e, w2) => (inl e, w2)
      | (inr chain, w2) =>
          (inr (<["message" := "Successfully processed '" +:+ name
                                +:+ "'. Ready to answer questions."]> ∅),
           set_rag_chain (Some chain) w2)
      end
  end.
Proof.
  unfold upload_try, upload_until_store, bind.
  destruct (open_wb path w) as [[e|[]] w1]; [done|].
  destruct (copyfileobj (file f) path w1) as [[e|[]] w2]; [done|].
  destruct (getsize path w2) as [[e|n] w3]; [done|].
  destruct (n =? 0)%nat; [done|].
  destruct (load_and_split_pdf P path w3) as [[e|chunks] w4]; [done|].
  destruct (create_vector_store P chunks w4) as [[e|db] w5]; [done|].
  cbn [modify gets vector_store set_vector_store].
  by destruct (create_rag_chain P db (set_vector_store (Some db) w5))
    as [[e|chain] w6].
Qed.

Lemma upload_until_store_session f path :
  preserves session (upload_until_store P f path).
Proof.
  unfold upload_until_store.
  apply preserves_bind; [apply open_wb_session|]. intros [].
  apply preserves_bind; [apply copyfileobj_session|]. intros [].
  apply preserves_bind; [apply getsize_session|]. intros n.
  destruct (n =? 0)%nat; [apply preserves_raise|].
  apply preserves_bind; [apply load_and_split_pdf_session|]. intros chunks.
  apply create_vector_store_session.
Qed.

(** The store these steps return is the one [create_vector_store] made in
    this request: its collection is named by the UUID drawn first. *)
Lemma upload_until_store_inr f path w db w1 :
  upload_until_store P f path w = (inr db, w1) →
  (open_wb path w).1 = inr tt ∧
  db = mkChroma ("pdf_chat_" +:+ uuid4 P (uuid_next w)) "models/embedding-001".
Proof.
  intros H. unfold upload_until_store in H.
  apply bind_inr in H as ([] & wa & Ho & H). rewrite Ho. split; [done|].
  apply open_wb_inr in Ho as [Hne ->].
  apply bind_inr in H as ([] & wb & Hc & H).
  unfold copyfileobj, modify in Hc. injection Hc as <-.
  apply bind_inr in H as (n & wc & Hg & H).
  unfold getsize, bind, gets in Hg. cbn in Hg. rewrite lookup_insert_eq in Hg.
  cbn in Hg. injection Hg as <- <-.
  destruct (file f) as [|b0 data]; [done|].
  cbn [length Nat.eqb] in H.
  apply bind_inr in H as (chunks & wd & Hl & H).
  apply load_and_split_pdf_inr in Hl as (d & pages & Hd & Hload & Hsplit & ->).
  by apply create_vector_store_inr in H as (embeddings & _ & _ & _ & _ & -> & _).
Qed.

(** C1, amended: an upload that fails leaves [rag_chain] as it was, and leaves
    [vector_store] as it was unless the failure is that of [create_rag_chain],
    which runs after [vector_store] has been assigned the store just created:
    then, and only then, [vector_store] holds that store.  An upload that
    succeeds has replaced both, with the store this request created and the
    chain built on it.  The store is the one the request's own steps return
    from the pre-state [w]; its collection is named by the UUID the request
    draws first. *)
Theorem upload_session_effect (f : UploadFile) (w : World) :
  let new_store :=
    mkChroma ("pdf_chat_" +:+ uuid4 P (uuid_next w)) "models/embedding-001" in
  let path_of name :=
    PosixPath.join TEMP_DIR (PyStr.replace "/" "_" (PyStr.replace ".." "_" name)) in
  match upload_document TEMP_DIR P f w with
  | (inr _, w') =>
      ∃ name w1 chain w2,
        content_type f = Some "application/pdf" ∧
        filename f = Some name ∧
        upload_until_store P f (path_of name) w = (inr new_store, w1) ∧
        create_rag_chain P new_store (set_vector_store (Some new_store) w1)
          = (inr chain, w2) ∧
        chain_retriever chain = new_store ∧
        vector_store w' = Some new_store ∧ rag_chain w' = Some chain
  | (inl _, w') =>
      rag_chain w' = rag_chain w ∧
      match filename f with
      | Some name =>
          if bool_decide (content_type f = Some "application/pdf") then
            match upload_until_store P f (path_of name) w with
            | (inr db, w1) =>
                db = new_store ∧
                (∃ e' w2,
                   create_rag_chain P db (set_vector_store (Some db) w1)
                   = (inl e', w2)) ∧
                vector_store w' = Some new_store
            | (inl _, _) => vector_store w' = vector_store w
            end
          else vector_store w' = vector_store w
      | None => vector_store w' = vector_store w
      end
  end.
Proof.
  intros new_store path_of.
  destruct (decide (content_type f = Some "application/pdf")) as [Hct|Hct].
  2:{ unfold upload_document. rewrite bool_decide_eq_true_2 by done.
      rewrite (bool_decide_eq_false_2 _ Hct). cbn. by destruct (filename f). }
  rewrite (bool_decide_eq_true_2 _ Hct).
  destruct (filename f) as [name|] eqn:Hname.
  2:{ unfold upload_document. rewrite Hname, Hct.
      rewrite bool_decide_eq_false_2 by (by intros ?). cbn. auto. }
  set (file_path := path_of name).
  pose proof (upload_try_until_store f name file_path w) as Ht.
  pose proof (upload_until_store_session f file_path w) as Ks.
  destruct (upload_until_store P f file_path w) as [[e|db] w1] eqn:Hu; simpl in Ks.
  - destruct (upload_handler_failed file_path _ _ _ _ Ht) as (e' & w' & Hr & Hw').
    unfold upload_document. rewrite Hname, Hct.
    rewrite bool_decide_eq_false_2 by (by intros ?).
    fold (path_of name). fold file_path. rewrite Hr.
    rewrite Ks in Hw'. by injection Hw' as -> ->.
  - destruct (upload_until_store_inr _ _ _ _ _ Hu) as [Hopen ->].
    fold new_store in Ht, Hu.
    pose proof (create_rag_chain_session P new_store
                  (set_vector_store (Some new_store) w1)) as Kc.
    destruct (create_rag_chain P new_store (set_vector_store (Some new_store) w1))
      as [[e2|chain] w2] eqn:Hc; simpl in Kc.
    + destruct (upload_handler_failed file_path _ _ _ _ Ht) as (e' & w' & Hr & Hw').
      unfold upload_document. rewrite Hname, Hct.
      rewrite bool_decide_eq_false_2 by (by intros ?).
      fold (path_of name). fold file_path. rewrite Hr.
      rewrite Kc in Hw'. injection Ks as _ Kr. injection Hw' as -> ->.
      split; [done|]. split; [done|]. split; [|done]. by exists e2, w2.
    + destruct (upload_document_opened TEMP_DIR P f name w Hct Hname)
        as (w' & Hr & Hw' & _); [done|].
      fold (path_of name) in Hr, Hw'. fold file_path in Hr, Hw'.
      rewrite Ht in Hr, Hw'. simpl in Hr, Hw'. rewrite Hr.
      injection Hw' as Hv ->. injection Kc as Kv _. cbn in Hv, Kv. rewrite Hv, Kv.
      exists name, w1, chain, w2. repeat split; try done.
      by apply (create_rag_chain_retriever P) in Hc.
Qed.

End SessionEffect.

(** ** What a successful upload has done *)

Section UploadSuccess.
Import Main.
Variable TEMP_DIR : string.
Variable P : Provider.

(** X4: a 200 from [/upload] means that the part was declared a PDF, had a
    filename and at least one byte, and the response is the success message
    with the filename as the client sent it (not the sanitized one). *)
Theorem upload_success_response (f : UploadFile) (w : World)
    (x : gmap string string) (w' : World) :
  upload_document TEMP_DIR P f w = (inr x, w') →
  ∃ name,
    content_type f = Some "application/pdf" ∧
    filename f = Some name ∧
    file f ≠ [] ∧
    x = <["message" := "Successfully processed '" +:+ name
                        +:+ "'. Ready to answer questions."]> ∅.
Proof.
  intros (name & w1 & Hct & Hname & Ht & _)%upload_document_inr.
  apply upload_try_success in Ht
    as (pages & chunks & embeddings & _ & Hf & _ & _ & _ & _ & _ & Hx & _).
  by exists name.
Qed.

(** X5: of the calls that [main.py] makes to [open] for writing, to
    [os.remove], to [PyPDFLoader.load], to the constructors of the embedding
    client, of [Chroma] and of the language-model client, to
    [embed_documents], to [_collection.add] and to [chain.invoke], a
    successful upload makes exactly eight, in this order: it opens the file
    for writing, loads the PDF, builds the embedding client, creates the
    collection, embeds all chunk texts in one call, adds them in one call,
    builds the language-model client and removes the file.  None of these is
    made twice or retried, and the chain is not invoked.  (Copying the bytes,
    splitting and drawing UUIDs are not among the calls counted.) *)
Theorem upload_success_calls (f : UploadFile) (w : World)
    (x : gmap string string) (w' : World) :
  upload_document TEMP_DIR P f w = (inr x, w') →
  ∃ name pages chunks embeddings,
    let file_path :=
      PosixPath.join TEMP_DIR (PyStr.replace "/" "_" (PyStr.replace ".." "_" name)) in
    let model := "models/embedding-001" in
    let cname := "pdf_chat_" +:+ uuid4 P (uuid_next w) in
    filename f = Some name ∧
    pdf_load P file_path (file f) = inr pages ∧
    split_documents P 1000 200 pages = inr chunks ∧
    embed_documents P model (map page_content chunks) = inr embeddings ∧
    calls w' =
      [CallRemove file_path;
       CallLLMInit "gemini-pro" 0;
       CallCollectionAdd cname
         (map (uuid4 P) (seq (S (uuid_next w)) (length chunks)))
         embeddings (map page_content chunks) (map metadata chunks);
       CallEmbedDocuments model (map page_content chunks);
       CallCollectionCreate cname;
       CallEmbeddingsInit model;
       CallPdfLoad file_path;
       CallOpenWrite file_path] ++ calls w.
Proof.
  intros (name & w1 & Hct & Hname & Ht & ->)%upload_document_inr.
  apply upload_try_success in Ht
    as (pages & chunks & embeddings & _ & _ & Hl & Hs & He & _ & _ & _ & ->).
  by exists name, pages, chunks, embeddings.
Qed.

End UploadSuccess.

(** ** Answers *)

Section Answers.
Import Main.
Variable TEMP_DIR : string.

(** [/ask] with a chain set: one call of the chain over the collection its
    retriever names, and the outcome by what that call gives. *)
Lemma ask_question_set P b w chain :
  rag_chain w = Some chain →
  ask_question P b w =
  (match chain_invoke P chain
           (default [] (collections w !! collection_name (chain_retriever chain)))
           (question b) with
   | inr response =>
       inr (<["answer" := default "No answer found." (response !! "answer")]> ∅)
   | inl (ResourceExhausted m) => inl (HTTPException 400 (quota_detail m))
   | inl e => inl (HTTPException 500 (unexpected_detail e))
   end,
   set_calls (CallChainInvoke (question b) :: calls w) w).
Proof.
  intros Hc. unfold ask_question, bind, gets, try_except, log, modify, lift_result.
  rewrite Hc. cbn.
  by destruct (chain_invoke P chain _ (question b)) as [[| |]|].
Qed.

Lemma ask_question_outcomes (P : Provider) (b : AskRequest) (w : World) :
  match (ask_question P b w).1 with
  | inr body => ∃ a, body = <["answer" := a]> ∅
  | inl e => ∃ d, e = HTTPException 400 d ∨ e = HTTPException 500 d
  end.
Proof.
  destruct (rag_chain w) as [chain|] eqn:Hc.
  - rewrite (ask_question_set P b w chain Hc). cbn.
    destruct (chain_invoke P chain _ (question b)) as [[| |]|]; eauto.
  - rewrite (ask_question_unset P b w Hc). cbn. eauto.
Qed.

(** X6: [/ask] always answers: with 200 and an object whose only key is
    [answer], or with an [HTTPException] of status 400 or 500.  No other
    exception leaves the handler, whatever the chain raises. *)
Theorem ask_always_answers (P : Provider) (b : AskRequest) (w : World) :
  match (ask_question P b w).1 with
  | inr body => ∃ a, body = <["answer" := a]> ∅
  | inl e => ∃ d, e = HTTPException 400 d ∨ e = HTTPException 500 d
  end.
Proof. apply ask_question_outcomes. Qed.

(** X7: the outcome of [/ask] depends on the world only through [rag_chain]
    and the vector index: the global [vector_store] and the disk play no part
    in it.  (So the new [vector_store] a failed upload may leave behind does
    not change any answer.) *)
Theorem ask_reads_chain_only (P : Provider) (b : AskRequest) (w1 w2 : World) :
  rag_chain w1 = rag_chain w2 →
  collections w1 = collections w2 →
  (ask_question P b w1).1 = (ask_question P b w2).1.
Proof.
  intros Hr Hc. destruct (rag_chain w2) as [chain|] eqn:H2.
  - by rewrite (ask_question_set P b w1 chain Hr),
               (ask_question_set P b w2 chain H2), Hc.
  - by rewrite (ask_question_unset P b w1 Hr), (ask_question_unset P b w2 H2).
Qed.

Lemma make_entries_columns ids embeddings documents metadatas :
  length embeddings = length ids →
  length documents = length ids →
  length metadatas = length ids →
  map entry_id (make_entries ids embeddings documents metadatas) = ids ∧
  map entry_embedding (make_entries ids embeddings documents metadatas) = embeddings ∧
  map entry_document (make_entries ids embeddings documents metadatas) = documents ∧
  map entry_metadata (make_entries ids embeddings documents metadatas) = metadatas.
Proof.
  revert embeddings documents metadatas.
  induction ids as [|i ids IH]; intros [|e es] [|d ds] [|m ms]; simpl; try done.
  intros [= He] [= Hd] [= Hm]. destruct (IH es ds ms He Hd Hm) as (-> & -> & -> & ->).
  done.
Qed.

(** X8: after a successful upload (the collection name drawn for it being
    unused), [/ask] invokes the chain built by this upload over exactly the
    entries of this upload: one per chunk of the uploaded file, in order,
    with the text, the metadata and the embedding of the chunk, under
    distinct ids.  Nothing of an earlier document is among them. *)
Theorem upload_then_ask (P : Provider) (f : UploadFile) (w : World)
    (x : gmap string string) (w' : World) (P' : Provider) (b : AskRequest) :
  upload_document TEMP_DIR P f w = (inr x, w') →
  collections w !! ("pdf_chat_" +:+ uuid4 P (uuid_next w)) = None →
  ∃ name pages chunks embeddings chain entries,
    filename f = Some name ∧
    pdf_load P (PosixPath.join TEMP_DIR
                  (PyStr.replace "/" "_" (PyStr.replace ".." "_" name))) (file f)
      = inr pages ∧
    split_documents P 1000 200 pages = inr chunks ∧
    embed_documents P "models/embedding-001" (map page_content chunks)
      = inr embeddings ∧
    rag_chain w' = Some chain ∧
    vector_store w' = Some (chain_retriever chain) ∧
    map entry_document entries = map page_content chunks ∧
    map entry_metadata entries = map metadata chunks ∧
    map entry_embedding entries = embeddings ∧
    NoDup (map entry_id entries) ∧
    (ask_question P' b w').1 =
      match chain_invoke P' chain entries (question b) with
      | inr response =>
          inr (<["answer" := default "No answer found." (response !! "answer")]> ∅)
      | inl (ResourceExhausted m) => inl (HTTPException 400 (quota_detail m))
      | inl e => inl (HTTPException 500 (unexpected_detail e))
      end.
Proof.
  intros (name & w1 & Hct & Hname & Ht & ->)%upload_document_inr Hfresh.
  apply upload_try_success in Ht
    as (pages & chunks & embeddings & _ & _ & Hl & Hs & He & Hlen & Hnd & _ & ->).
  cbn zeta in *. rewrite Hfresh. cbn [default app].
  set (ids := map (uuid4 P) (seq (S (uuid_next w)) (length chunks))) in *.
  destruct (make_entries_columns ids embeddings (map page_content chunks)
              (map metadata chunks)) as (Hi & Hem & Hd & Hm).
  { unfold ids. by rewrite length_map, length_seq. }
  { unfold ids. by rewrite !length_map, length_seq. }
  { unfold ids. by rewrite !length_map, length_seq. }
  eexists name, pages, chunks, embeddings, _, _.
  repeat split; [done..| | | | | |].
  6:{ erewrite ask_question_set by reflexivity. cbn.
      rewrite lookup_insert_eq. cbn. reflexivity. }
  all: cbn; try done. by rewrite Hi.
Qed.

End Answers.

(** ** Runs of the service *)

Section Runs.
Import Main.
Variable TEMP_DIR : string.

Lemma upload_cleanup_fs path w :
  fs (upload_cleanup path w).2 = fs w ∨
  fs (upload_cleanup path w).2 = delete path (fs w).
Proof.
  unfold upload_cleanup, bind, path_exists, gets, remove, log, modify.
  destruct (String.eqb path ""); cbn; [by left|].
  destruct (fs w !! path) as [[d|n]|] eqn:E; cbn; rewrite ?E; cbn; auto.
Qed.

(** The disk after an upload: as before, or as before without the file
    at the path of the upload. *)
Lemma upload_document_fs P f w :
  fs (upload_document TEMP_DIR P f w).2 = fs w ∨
  ∃ path, fs (upload_document TEMP_DIR P f w).2 = delete path (fs w).
Proof.
  destruct (decide (content_type f = Some "application/pdf")) as [Hct|Hct].
  2:{ left. unfold upload_document. by rewrite bool_decide_eq_true_2. }
  destruct (filename f) as [name|] eqn:Hname.
  2:{ left. unfold upload_document. rewrite Hname, Hct.
      by rewrite bool_decide_eq_false_2 by (by intros ?). }
  set (file_path :=
    PosixPath.join TEMP_DIR (PyStr.replace "/" "_" (PyStr.replace ".." "_" name))).
  destruct (open_wb file_path w) as [[e0|[]] w0] eqn:Ho.
  - pose proof (upload_try_fs P f name file_path w) as Hf. rewrite Ho in Hf.
    destruct Hf as [Hf Hfs].
    unfold upload_document. rewrite Hname, Hct.
    rewrite bool_decide_eq_false_2 by (by intros ?). fold file_path.
    unfold try_finally, try_except. rewrite Hf.
    destruct (upload_except_raises e0 w0) as [e' ->].
    pose proof (upload_cleanup_fs file_path w0) as Hc.
    destruct (upload_cleanup file_path w0) as [[e2|[]] w2]; simpl in *;
      rewrite Hfs in Hc; destruct Hc; eauto.
  - right. exists file_path.
    destruct (upload_document_opened TEMP_DIR P f name w Hct Hname)
      as (w' & Hr & _ & Hfs); [by fold file_path; rewrite Ho|].
    by rewrite Hr.
Qed.

Lemma handle_fs P r w : fs (handle TEMP_DIR P r w).2 ⊆ fs w.
Proof.
  destruct r as [|f|b]; simpl.
  - done.
  - destruct (upload_document_fs P f w) as [->|[path ->]]; [done|].
    apply delete_subseteq.
  - by rewrite (ask_question_keeps fs P b).
Qed.

(** X9: no run of requests leaves a file behind: every file on the disk
    after the run was there before it, with the same content.  (An upload can
    only take a file away: the one at its own path.) *)
Theorem serve_leaves_no_file (rs : list (Provider * request)) (w : World) :
  fs (serve TEMP_DIR rs w).2 ⊆ fs w.
Proof.
  revert w. induction rs as [|[P r] rs IH]; intros w; simpl; [done|].
  pose proof (handle_fs P r w) as Hh.
  destruct (handle TEMP_DIR P r w) as [o w1]. simpl in Hh.
  specialize (IH w1). destruct (serve TEMP_DIR rs w1) as [os w2]. simpl in *.
  by etrans.
Qed.

Lemma handle_ready_stays P r w :
  is_Some (rag_chain w) → is_Some (rag_chain (handle TEMP_DIR P r w).2).
Proof.
  intros Hw. destruct r as [|f|b]; simpl.
  - done.
  - pose proof (upload_document_session TEMP_DIR P f w) as Hs.
    destruct (upload_document TEMP_DIR P f w) as [[e|x] w']; simpl.
    + destruct Hs as [-> _]. done.
    + destruct Hs as (? & ? & ? & ? & ? & chain & _ & _ & _ & _ & ->). done.
  - by rewrite (ask_question_keeps rag_chain P b).
Qed.

Lemma handle_success_sets P r w :
  upload_succeeded (r, (handle TEMP_DIR P r w).1) = true →
  is_Some (rag_chain (handle TEMP_DIR P r w).2).
Proof.
  destruct r as [|f|b]; simpl; [done| |by destruct (ask_question P b w).1].
  pose proof (upload_document_session TEMP_DIR P f w) as Hs.
  destruct (upload_document TEMP_DIR P f w) as [[e|x] w']; simpl; [done|].
  destruct Hs as (? & ? & ? & ? & ? & chain & _ & _ & _ & _ & ->). done.
Qed.

Lemma serve_ready rs w :
  is_Some (rag_chain (serve TEMP_DIR rs w).2) ↔
  is_Some (rag_chain w) ∨ existsb upload_succeeded (serve TEMP_DIR rs w).1 = true.
Proof.
  revert w. induction rs as [|[P r] rs IH]; intros w; simpl.
  - split; [auto|]. by intros [|].
  - pose proof (handle_ready_stays P r w) as Hstay.
    pose proof (handle_success_sets P r w) as Hset.
    pose proof (handle_keeps_unset TEMP_DIR P r w) as Hkeep.
    destruct (handle TEMP_DIR P r w) as [o w1]. simpl in *.
    specialize (IH w1). destruct (serve TEMP_DIR rs w1) as [os w2]. simpl in *.
    rewrite IH, orb_true_iff. split.
    + intros [H1|H]; [|by auto].
      destruct (upload_succeeded (r, o)) eqn:E; [by auto|].
      destruct (rag_chain w) eqn:Hw; [by left|].
      rewrite (Hkeep eq_refl E) in H1. by destruct H1.
    + intros [H|[H|H]]; auto.
Qed.

(** X10: the service is ready exactly from its first successful upload on:
    after any run of requests since start-up, [rag_chain] is set if and only
    if some upload of the run succeeded.  Once set it is never unset. *)
Theorem ready_iff_upload_succeeded (rs : list (Provider * request))
    (disk : gmap string node) :
  is_Some (rag_chain (serve TEMP_DIR rs (boot disk)).2) ↔
  existsb upload_succeeded (serve TEMP_DIR rs (boot disk)).1 = true.
Proof.
  rewrite serve_ready. split; [|by auto]. intros [H|H]; [|done].
  by destruct H.
Qed.

End Runs.

(** ** Uploads that go wrong *)

Section UploadFailures.
Import Main.
Variable TEMP_DIR : string.
Variable P : Provider.

Lemma open_wb_inl path w e w0 :
  open_wb path w = (inl e, w0) →
  path = "" ∨ ∃ n, fs w !! path = Some (NDir n).
Proof.
  unfold open_wb, bind, log, modify, gets. cbn.
  destruct (String.eqb_spec path "") as [->|Hne]; [by left|].
  destruct (fs w !! path) as [[d|n]|]; cbn; [done| |done]. eauto.
Qed.

Lemma open_wb_dir path n w :
  path ≠ "" → fs w !! path = Some (NDir n) →
  open_wb path w
  = (inl (OtherException "IsADirectoryError"
            ("[Errno 21] Is a directory: '" +:+ path +:+ "'")),
     set_calls (CallOpenWrite path :: calls w) w).
Proof.
  intros Hne Hdir. unfold open_wb, bind, log, modify, gets. cbn.
  destruct (String.eqb_spec path "") as [->|_]; [done|]. by rewrite Hdir.
Qed.

Lemma upload_cleanup_dir path n w :
  path ≠ "" → fs w !! path = Some (NDir n) →
  upload_cleanup path w
  = (inl (OtherException "IsADirectoryError"
            ("[Errno 21] Is a directory: '" +:+ path +:+ "'")),
     set_calls (CallRemove path :: calls w) w).
Proof.
  intros Hne Hdir. unfold upload_cleanup, bind, path_exists, gets, remove, log, modify.
  destruct (String.eqb_spec path "") as [->|_]; [done|]. cbn.
  rewrite Hdir. cbn. by rewrite Hdir.
Qed.

(** X11: any exception of the pipeline that is neither an [HTTPException] nor
    a quota error is answered with 500 and the detail ["An unexpected error
    occurred: "] followed by the text of the exception, provided the path of
    the upload is not a directory; [rag_chain] is as before. *)
Theorem upload_unexpected_is_500 (f : UploadFile) (name : string) (w : World)
    (c t : string) (w1 : World) :
  content_type f = Some "application/pdf" →
  filename f = Some name →
  let file_path :=
    PosixPath.join TEMP_DIR (PyStr.replace "/" "_" (PyStr.replace ".." "_" name)) in
  (∀ n, fs w !! file_path ≠ Some (NDir n)) →
  upload_try P f name file_path w = (inl (OtherException c t), w1) →
  (upload_document TEMP_DIR P f w).1
    = inl (HTTPException 500 ("An unexpected error occurred: " +:+ t)) ∧
  http_status (upload_document TEMP_DIR P f w).1 = 500%Z ∧
  rag_chain (upload_document TEMP_DIR P f w).2 = rag_chain w.
Proof.
  intros Hct Hname file_path Hdir Htry.
  assert (H : (upload_document TEMP_DIR P f w).1
              = inl (HTTPException 500 ("An unexpected error occurred: " +:+ t))).
  { destruct (open_wb file_path w) as [[e0|[]] w0] eqn:Ho.
    - destruct (open_wb_inl _ _ _ _ Ho) as [Hp|[n Hn]]; [|by destruct (Hdir n)].
      pose proof (upload_try_fs P f name file_path w) as Hf. rewrite Ho in Hf.
      destruct Hf as [Hf _]. rewrite Hf in Htry. injection Htry as -> ->.
      unfold upload_document. rewrite Hname, Hct.
      rewrite bool_decide_eq_false_2 by (by intros ?). fold file_path.
      unfold try_finally, try_except. rewrite Hf. cbn. by rewrite Hp.
    - destruct (upload_document_opened TEMP_DIR P f name w Hct Hname)
        as (w' & Hr & _); [by fold file_path; rewrite Ho|].
      fold file_path in Hr. by rewrite Hr, Htry. }
  rewrite H. split; [done|]. split; [done|].
  pose proof (upload_document_session TEMP_DIR P f w) as Hs.
  destruct (upload_document TEMP_DIR P f w) as [[e|x] w']; simpl in *; [|done].
  by destruct Hs as [-> _].
Qed.

(** X12: when the path of the upload is a directory (as with the filename
    [.], which is joined to the temporary directory itself), the file cannot
    be opened and the [finally] clause then calls [os.remove] on the
    directory: the exception of that call replaces the [HTTPException] of the
    handler and leaves it as it is, so that the client gets the plain-text 500
    of the framework, not a JSON detail.  Disk and Session are unchanged. *)
Theorem upload_onto_directory (f : UploadFile) (name : string) (n : nat) (w : World) :
  content_type f = Some "application/pdf" →
  filename f = Some name →
  let file_path :=
    PosixPath.join TEMP_DIR (PyStr.replace "/" "_" (PyStr.replace ".." "_" name)) in
  file_path ≠ "" →
  fs w !! file_path = Some (NDir n) →
  upload_document TEMP_DIR P f w
  = (inl (OtherException "IsADirectoryError"
            ("[Errno 21] Is a directory: '" +:+ file_path +:+ "'")),
     set_calls (CallRemove file_path :: CallOpenWrite file_path :: calls w) w) ∧
  (Wire.response_of (upload_document TEMP_DIR P f w).1).2
  = inl "Expecting value: line 1 column 1 (char 0)".
Proof.
  intros Hct Hname file_path Hne Hdir.
  assert (H : upload_document TEMP_DIR P f w
              = (inl (OtherException "IsADirectoryError"
                        ("[Errno 21] Is a directory: '" +:+ file_path +:+ "'")),
                 set_calls (CallRemove file_path :: CallOpenWrite file_path :: calls w) w)).
  { unfold upload_document. rewrite Hname, Hct.
    rewrite bool_decide_eq_false_2 by (by intros ?). fold file_path.
    unfold try_finally, try_except, upload_try. unfold bind at 1.
    rewrite (open_wb_dir _ n w Hne Hdir). cbn.
    by rewrite (upload_cleanup_dir file_path n
                  (set_calls (CallOpenWrite file_path :: calls w) w) Hne Hdir). }
  by rewrite H.
Qed.

End UploadFailures.

(** ** Collections of successive uploads *)

Section Collections.
Import Main Draws.
Variable TEMP_DIR : string.

Lemma grows_of_preserves {A} (m : M A) : preserves uuid_next m → grows m.
Proof. intros H w. by rewrite H. Qed.

Lemma grows_bind {A B} (m : M A) (k : A → M B) :
  grows m → (∀ a, grows (k a)) → grows (bind m k).
Proof.
  intros Hm Hk w. unfold bind. specialize (Hm w).
  destruct (m w) as [[e|a] w1]; simpl in *; [done|].
  specialize (Hk a w1). lia.
Qed.

Lemma grows_try_except {A} (body : M A) handler :
  grows body → (∀ e, grows (handler e)) → grows (try_except body handler).
Proof.
  intros Hm Hk w. unfold try_except. specialize (Hm w).
  destruct (body w) as [[e|a] w1]; simpl in *; [|done].
  specialize (Hk e w1). lia.
Qed.

Lemma grows_try_finally {A} (body : M A) cleanup :
  grows body → grows cleanup → grows (try_finally body cleanup).
Proof.
  intros Hm Hc w. unfold try_finally. specialize (Hm w).
  destruct (body w) as [r w1]. specialize (Hc w1).
  destruct (cleanup w1) as [[e|u] w2]; simpl in *; lia.
Qed.

Lemma grows_uuid4_str P : grows (uuid4_str P).
Proof. intros w. simpl. lia. Qed.

Lemma grows_fresh_ids P docs : grows (fresh_ids P docs).
Proof. intros w. rewrite fresh_ids_run. simpl. lia. Qed.

Lemma grows_create_vector_store P chunks : grows (create_vector_store P chunks).
Proof.
  unfold create_vector_store.
  apply grows_try_except; [|intros e; by apply grows_of_preserves].
  apply grows_bind; [apply grows_of_preserves; frame_handlers|]. intros _.
  apply grows_bind; [apply grows_of_preserves; frame_handlers|]. intros _.
  apply grows_bind; [apply grows_uuid4_str|]. intros u.
  apply grows_bind; [apply grows_of_preserves; frame_handlers|]. intros db.
  apply grows_bind; [apply grows_of_preserves; frame_handlers|]. intros _.
  apply grows_bind; [apply grows_of_preserves; frame_handlers|]. intros e.
  apply grows_bind; [apply grows_fresh_ids|]. intros ids.
  apply grows_bind; [|intros ?]; apply grows_of_preserves; frame_handlers.
Qed.

Lemma grows_upload_document P f : grows (upload_document TEMP_DIR P f).
Proof.
  unfold upload_document. case_bool_decide; [by apply grows_of_preserves|].
  assert (Hc : ∀ path, grows (upload_cleanup path))
    by (intros; apply grows_of_preserves; frame_handlers).
  assert (He : ∀ e, grows (upload_except e))
    by (intros; apply grows_of_preserves; frame_handlers).
  destruct (filename f) as [name|].
  2:{ apply grows_try_finally; [|done]. apply grows_try_except; [|done].
      by apply grows_of_preserves. }
  apply grows_try_finally; [|done]. apply grows_try_except; [|done].
  unfold upload_try.
  apply grows_bind; [apply grows_of_preserves; frame_handlers|]. intros _.
  apply grows_bind; [apply grows_of_preserves; frame_handlers|]. intros _.
  apply grows_bind; [apply grows_of_preserves; frame_handlers|]. intros n.
  destruct (n =? 0)%nat; [by apply grows_of_preserves|].
  apply grows_bind; [apply grows_of_preserves; frame_handlers|]. intros chunks.
  apply grows_bind; [apply grows_create_vector_store|]. intros db.
  apply grows_bind; [apply grows_of_preserves; frame_handlers|]. intros _.
  apply grows_bind; [apply grows_of_preserves; frame_handlers|]. intros vs.
  apply grows_bind; [destruct vs; apply grows_of_preserves; frame_handlers|].
  intros chain.
  apply grows_bind; [|intros ?]; apply grows_of_preserves; frame_handlers.
Qed.

Lemma grows_handle P r : grows (handle TEMP_DIR P r).
Proof.
  destruct r as [|f|b]; simpl.
  - by apply grows_of_preserves.
  - apply grows_upload_document.
  - apply grows_of_preserves. by apply ask_question_keeps.
Qed.

Lemma serve_uuid_next rs w : (uuid_next w ≤ uuid_next (serve TEMP_DIR rs w).2)%nat.
Proof.
  revert w. induction rs as [|[P r] rs IH]; intros w; simpl; [done|].
  pose proof (grows_handle P r w) as Hh.
  destruct (handle TEMP_DIR P r w) as [o w1]. simpl in Hh.
  specialize (IH w1). destruct (serve TEMP_DIR rs w1) as [os w2]. simpl in *. lia.
Qed.

(** X14: two successful uploads never share a collection, provided the UUID
    generator does not repeat itself: whatever requests were handled in
    between, the [vector_store] of the later upload names another collection
    than that of the earlier one.  (So uploading the same PDF again builds a
    second, independent index.) *)
Theorem reupload_gets_new_collection (P : Provider) (f1 f2 : UploadFile)
    (rs : list (Provider * request)) (w : World)
    (x1 x2 : gmap string string) (w1 w3 : World) :
  (∀ i j, uuid4 P i = uuid4 P j → i = j) →
  upload_document TEMP_DIR P f1 w = (inr x1, w1) →
  upload_document TEMP_DIR P f2 (serve TEMP_DIR rs w1).2 = (inr x2, w3) →
  ∃ db1 db3,
    vector_store w1 = Some db1 ∧
    vector_store w3 = Some db3 ∧
    collection_name db1 ≠ collection_name db3.
Proof.
  intros Hinj H1 H3.
  pose proof (serve_uuid_next rs w1) as Hmono.
  apply upload_document_inr in H1 as (n1 & wa & _ & _ & Ht1 & ->).
  apply upload_try_success in Ht1 as (? & chunks1 & ? & _ & _ & _ & _ & _ & _ & _ & _ & ->).
  apply upload_document_inr in H3 as (n3 & wb & _ & _ & Ht3 & ->).
  apply upload_try_success in Ht3 as (? & chunks3 & ? & _ & _ & _ & _ & _ & _ & _ & _ & ->).
  cbn in Hmono |- *. eexists _, _. split; [done|]. split; [done|].
  cbn. intros Heq. simplify_eq. apply Hinj in Heq. lia.
Qed.

End Collections.

(** ** The browser UI *)

Section Browser.
Import PyStr GradioUI.

Lemma alter_last_row (h : list (string * option string)) q a c :
  alter (λ row, (row.1, Some c)) (length (h ++ [(q, a)]) - 1) (h ++ [(q, a)])
  = h ++ [(q, Some c)].
Proof.
  rewrite length_app. simpl.
  replace (length h + 1 - 1)%nat with (length h + 0)%nat by lia.
  by rewrite alter_app_r.
Qed.

Lemma stream_into_rows h q a chunks :
  Forall (λ u, u.2 = "" ∧ ∃ a', u.1 = h ++ [(q, a')])
         (stream_into (h ++ [(q, a)]) chunks).
Proof.
  revert a. induction chunks as [|c chunks IH]; intros a; simpl; [constructor|].
  rewrite alter_last_row. constructor; [|apply IH]. simpl. eauto.
Qed.

Lemma stream_into_last h q a chunks :
  last (stream_into (h ++ [(q, a)]) chunks)
  = (λ c, (h ++ [(q, Some c)], "")) <$> last chunks.
Proof.
  revert a. induction chunks as [|c chunks IH]; intros a; [done|].
  simpl stream_into. rewrite alter_last_row.
  destruct chunks as [|c' chunks]; [done|].
  rewrite !last_cons_cons. apply IH.
Qed.

(** X16: every update [handle_user_question] sends clears the text box and
    shows the history it was given, untouched, followed by one row with the
    question; the first update has no answer in that row yet. *)
Theorem handle_user_question_rows (post : string → api_outcome) (q : string)
    (h : list (string * option string)) :
  head (handle_user_question post q h) = Some (h ++ [(q, None)], "") ∧
  Forall (λ u, u.2 = "" ∧ ∃ a, u.1 = h ++ [(q, a)]) (handle_user_question post q h).
Proof.
  unfold handle_user_question. split; [done|].
  constructor; [simpl; eauto|]. apply stream_into_rows.
Qed.

Lemma typing_last answer :
  answer ≠ "" →
  last (map (λ i, slice_to (i + 3) answer) (range 0 (String.length answer) 3))
  = Some answer.
Proof.
  intros Hne.
  assert (HL : (0 < String.length answer)%nat) by (destruct answer; [done|simpl; lia]).
  set (L := String.length answer) in *.
  pose proof (Nat.Div0.mul_div_le (L + 2) 3) as Hle.
  pose proof (Nat.mul_succ_div_gt (L + 2) 3) as Hgt.
  rewrite last_lookup, typing_length, typing_lookup. fold L.
  case_decide; [|lia]. f_equal. apply slice_to_all. fold L. lia.
Qed.

(** X17: when [/ask] answers with a non-empty answer, the last update of
    [handle_user_question] shows the history, then the question with the
    whole answer. *)
Theorem handle_user_question_final (post : string → api_outcome) (q : string)
    (h : list (string * option string)) (body : gmap string string)
    (answer : string) :
  q ≠ "" →
  post q = Answered body →
  body !! "answer" = Some answer →
  answer ≠ "" →
  last (handle_user_question post q h) = Some (h ++ [(q, Some answer)], "").
Proof.
  intros Hq%String.eqb_neq Hpost Hbody Ha. unfold handle_user_question.
  assert (Hys : ask_question post q (h ++ [(q, None)])
                = map (λ i, slice_to (i + 3) answer) (range 0 (String.length answer) 3)).
  { unfold ask_question. by rewrite Hq, Hpost, Hbody. }
  pose proof (stream_into_last h q None (ask_question post q (h ++ [(q, None)]))) as Hl.
  rewrite Hys, (typing_last _ Ha) in Hl. rewrite Hys.
  destruct (stream_into _ _) as [|u us] eqn:E; [done|].
  by rewrite last_cons_cons.
Qed.

Lemma range_nil_inv stop : range 0 stop 3 = [] → stop = 0%nat.
Proof.
  unfold range. destruct stop as [|n]; [done|].
  replace (S n <=? 0)%nat with false by done.
  rewrite Nat.add_1_r. done.
Qed.

(** X18: for the replies [api_outcome] covers (a success or an error
    response whose body is a JSON object of strings, or a request that fails
    with an exception of [requests]), [ask_question] yields nothing in one
    case only: a non-empty question answered successfully with the empty
    string as answer.  In every other of these cases (an answer, a missing
    answer, an error of the server or of the request, an empty question) the
    chat gets at least one message. *)
Theorem ask_question_silent_iff (post : string → api_outcome) (q : string)
    (h : list (string * option string)) :
  ask_question post q h = [] ↔
  q ≠ "" ∧ ∃ body, post q = Answered body ∧ body !! "answer" = Some "".
Proof.
  unfold ask_question. split.
  - destruct (String.eqb_spec q "") as [->|Hq]; [done|].
    destruct (post q) as [body| |]; [|done..].
    intros Hnil%fmap_nil_inv%range_nil_inv. split; [done|]. exists body. split; [done|].
    destruct (body !! "answer") as [a|]; [|done]. simpl in Hnil. by destruct a.
  - intros [Hq%String.eqb_neq (body & -> & ->)]. by rewrite Hq.
Qed.

End Browser.

(** ** The upload button *)

Section UploadButton.
Import PyStr GradioUpload.

(** X19: [upload_pdf] always clears the chat, and switches the question box
    and the ask button together: they are enabled exactly when a file was
    selected, could be read, and the request came back without an error
    status and with a JSON body.  The only exception that leaves the function
    is the one of decoding the body of an error response that is not JSON. *)
Theorem upload_pdf_controls (open_rb : string → string + list byte)
    (post : string → list byte → string → upload_reply)
    (file_obj : option string) :
  match upload_pdf open_rb post file_obj with
  | inr (chat, status, question_box, ask_button) =>
      chat = [] ∧ question_box = ask_button ∧
      (question_box = true ↔
       ∃ name data code obj,
         file_obj = Some name ∧ open_rb name = inr data ∧
         post (basename name) data "application/pdf" = Replied code (inr obj) ∧
         is_error_status code = false)
  | inl e =>
      ∃ name data code,
        file_obj = Some name ∧ open_rb name = inr data ∧
        post (basename name) data "application/pdf" = Replied code (inl e) ∧
        is_error_status code = true
  end.
Proof.
  unfold upload_pdf. destruct file_obj as [name|].
  2:{ repeat split; [done|]. by intros (? & ? & ? & ? & ? & _). }
  destruct (open_rb name) as [e|data] eqn:Ho.
  { repeat split; [done|]. intros (? & ? & ? & ? & [= <-] & Ho' & _). congruence. }
  destruct (post (basename name) data "application/pdf") as [code body|e] eqn:Hp.
  2:{ repeat split; [done|].
      intros (? & ? & ? & ? & [= <-] & Ho' & Hp' & _). congruence. }
  destruct (is_error_status code) eqn:Hs; destruct body as [e|obj].
  - by exists name, data, code.
  - repeat split; [done|].
    intros (? & ? & ? & ? & [= <-] & Ho' & Hp' & Hs'). congruence.
  - repeat split; [done|].
    intros (? & ? & ? & ? & [= <-] & Ho' & Hp' & _). congruence.
  - repeat split. intros _. by exists name, data, code, obj.
Qed.

End UploadButton.

(** ** The UI in front of the service *)

Section EndToEnd.
Import PyStr Main.
Variable TEMP_DIR : string.



End EndToEnd.

(** ** The further theorems at work on concrete requests *)

Section MoreInstances.
Import Main Examples Cases.

Lemma sanitize_keeps_plain_names_witness :
  PyStr.contains "/" "notes.pdf" = false ∧
  PyStr.contains ".." "notes.pdf" = false ∧
  PyStr.replace "/" "_" (PyStr.replace ".." "_" "notes.pdf") = "notes.pdf".
Proof.
  exact (conj eq_refl (conj eq_refl
           (sanitize_keeps_plain_names "notes.pdf" eq_refl eq_refl))).
Defined.

Lemma upload_ready :
  upload_document tmp provider_up pdf_part (boot ∅) = (inr ready_message, ready).
Proof. vm_compute. reflexivity. Qed.

Lemma upload_success_response_witness :
  upload_document tmp provider_up pdf_part (boot ∅) = (inr ready_message, ready) ∧
  ∃ name, filename pdf_part = Some name ∧ file pdf_part ≠ [].
Proof.
  split; [exact upload_ready|].
  destruct (upload_success_response tmp provider_up pdf_part (boot ∅)
              ready_message ready upload_ready) as (name & _ & Hn & Hf & _).
  exists name. exact (conj Hn Hf).
Defined.

Lemma upload_success_calls_witness :
  upload_document tmp provider_up pdf_part (boot ∅) = (inr ready_message, ready) ∧
  length (calls ready) = 8%nat.
Proof.
  split; [exact upload_ready|].
  destruct (upload_success_calls tmp provider_up pdf_part (boot ∅)
              ready_message ready upload_ready)
    as (name & pages & chunks & embeddings & _ & _ & _ & _ & Hc).
  rewrite Hc. reflexivity.
Defined.

(** The Session half replaced: [ready] with another [vector_store]. *)
Lemma ask_reads_chain_only_witness :
  rag_chain ready = rag_chain (set_vector_store None (set_fs disk_with_tmp ready)) ∧
  collections ready
  = collections (set_vector_store None (set_fs disk_with_tmp ready)) ∧
  (ask_question provider_up (mkAskRequest "What is Rocq?") ready).1
  = (ask_question provider_up (mkAskRequest "What is Rocq?")
       (set_vector_store None (set_fs disk_with_tmp ready))).1.
Proof.
  assert (Hr : ∀ w, rag_chain w
                    = rag_chain (set_vector_store None (set_fs disk_with_tmp w)))
    by reflexivity.
  assert (Hc : ∀ w, collections w
                    = collections (set_vector_store None (set_fs disk_with_tmp w)))
    by reflexivity.
  exact (conj (Hr ready) (conj (Hc ready)
           (ask_reads_chain_only provider_up (mkAskRequest "What is Rocq?")
              ready _ (Hr ready) (Hc ready)))).
Defined.

Lemma upload_then_ask_witness :
  upload_document tmp provider_up pdf_part (boot ∅) = (inr ready_message, ready) ∧
  collections (boot ∅) !! ("pdf_chat_" +:+ uuid4 provider_up (uuid_next (boot ∅))) = None ∧
  ∃ chain, rag_chain ready = Some chain ∧ vector_store ready = Some (chain_retriever chain).
Proof.
  split; [exact upload_ready|]. split; [reflexivity|].
  destruct (upload_then_ask tmp provider_up pdf_part (boot ∅) ready_message ready
              provider_up (mkAskRequest "What is Rocq?") upload_ready eq_refl)
    as (name & pages & chunks & embeddings & chain & entries
        & _ & _ & _ & _ & Hr & Hv & _).
  exists chain. exact (conj Hr Hv).
Defined.

Lemma upload_bad_pdf :
  upload_try provider_bad_pdf pdf_part "notes.pdf" "/tmp/tmpk3v9x1qa/notes.pdf" (boot ∅)
  = (inl (OtherException "PdfReadError" "EOF marker not found"),
     (upload_try provider_bad_pdf pdf_part "notes.pdf"
        "/tmp/tmpk3v9x1qa/notes.pdf" (boot ∅)).2).
Proof. vm_compute. reflexivity. Qed.

Lemma upload_unexpected_is_500_witness :
  (∀ n, fs (boot ∅) !! "/tmp/tmpk3v9x1qa/notes.pdf" ≠ Some (NDir n)) ∧
  (upload_document tmp provider_bad_pdf pdf_part (boot ∅)).1
  = inl (HTTPException 500 "An unexpected error occurred: EOF marker not found").
Proof.
  assert (Hd : ∀ n, fs (boot ∅) !! "/tmp/tmpk3v9x1qa/notes.pdf" ≠ Some (NDir n))
    by (intros n; discriminate).
  split; [exact Hd|].
  exact (proj1 (upload_unexpected_is_500 tmp provider_bad_pdf pdf_part "notes.pdf"
                  (boot ∅) _ _ _ eq_refl eq_refl Hd upload_bad_pdf)).
Defined.

Lemma dot_path_is_directory :
  fs (boot disk_with_tmp) !! "/tmp/tmpk3v9x1qa/." = Some (NDir 4096).
Proof. vm_compute. reflexivity. Qed.

Lemma upload_onto_directory_witness :
  fs (boot disk_with_tmp) !! "/tmp/tmpk3v9x1qa/." = Some (NDir 4096) ∧
  (upload_document tmp provider_up dot_part (boot disk_with_tmp)).1
  = inl (OtherException "IsADirectoryError"
           "[Errno 21] Is a directory: '/tmp/tmpk3v9x1qa/.'").
Proof.
  split; [exact dot_path_is_directory|].
  assert (Hne : "/tmp/tmpk3v9x1qa/." ≠ "") by discriminate.
  pose proof (upload_onto_directory tmp provider_up dot_part "." 4096
                (boot disk_with_tmp) eq_refl eq_refl Hne dot_path_is_directory)
    as [H _].
  rewrite H. reflexivity.
Defined.

Lemma provider_up_uuid4_inj i j :
  uuid4 provider_up i = uuid4 provider_up j → i = j.
Proof.
  unfold provider_up. cbn [uuid4].
  change ("id-" +:+ pretty i) with (String "i" (String "d" (String "-" (pretty i)))).
  change ("id-" +:+ pretty j) with (String "i" (String "d" (String "-" (pretty j)))).
  intros [= H]. by apply (inj pretty).
Qed.

Lemma upload_again :
  upload_document tmp provider_up pdf_part (serve tmp [] ready).2
  = (inr ready_message,
     (upload_document tmp provider_up pdf_part (serve tmp [] ready).2).2).
Proof. vm_compute. reflexivity. Qed.

(** The same PDF uploaded twice. *)
Lemma reupload_gets_new_collection_witness :
  upload_document tmp provider_up pdf_part (boot ∅) = (inr ready_message, ready) ∧
  ∃ db1 db3,
    vector_store ready = Some db1 ∧
    vector_store (upload_document tmp provider_up pdf_part (serve tmp [] ready).2).2
      = Some db3 ∧
    collection_name db1 ≠ collection_name db3.
Proof.
  split; [exact upload_ready|].
  exact (reupload_gets_new_collection tmp provider_up pdf_part pdf_part []
           (boot ∅) ready_message ready_message ready _
           provider_up_uuid4_inj upload_ready upload_again).
Defined.

Lemma handle_user_question_final_witness :
  "What?" ≠ "" ∧ "abcdefgh" ≠ "" ∧
  last (GradioUI.handle_user_question
          (λ _, GradioUI.Answered (<["answer" := "abcdefgh"]> ∅)) "What?"
          [("Hi", Some "Hello")])
  = Some ([("Hi", Some "Hello")] ++ [("What?", Some "abcdefgh")], "").
Proof.
  assert (Hq : "What?" ≠ "") by discriminate.
  assert (Ha : "abcdefgh" ≠ "") by discriminate.
  assert (Hb : (<["answer" := "abcdefgh"]> ∅ : gmap string string) !! "answer"
               = Some "abcdefgh") by (vm_compute; reflexivity).
  exact (conj Hq (conj Ha
           (handle_user_question_final _ "What?" [("Hi", Some "Hello")] _ "abcdefgh"
              Hq eq_refl Hb Ha))).
Defined.




End MoreInstances.

(** ** The Session as the clients see it *)

Section Observable.
Import Main.
Variable TEMP_DIR : string.

Lemma create_vector_store_others P chunks w k :
  k ≠ "pdf_chat_" +:+ uuid4 P (uuid_next w) →
  collections (create_vector_store P chunks w).2 !! k = collections w !! k.
Proof.
  intros Hk.
  unfold create_vector_store, try_except, bind, log, modify, lift_ctor,
    lift_result, Chroma_init, uuid4_str, gets, collection_add, ret, raise.
  cbn beta.
  destruct (embeddings_init P "models/embedding-001") as [e|]; [done|].
  destruct (embed_documents P "models/embedding-001" (map page_content chunks))
    as [e|embeddings]; cbn.
  - destruct (collections w !! _) eqn:E; cbn; [done|]. by rewrite lookup_insert_ne.
  - rewrite fresh_ids_run, map_id, !length_map.
    destruct (collections w !! ("pdf_chat_" +:+ uuid4 P (uuid_next w))) eqn:E; cbn;
      rewrite ?lookup_insert_eq, ?E; repeat case_match; simplify_eq; cbn;
      rewrite ?lookup_insert_ne by done; try done;
      unfold modify in *; simplify_eq; cbn; by rewrite ?lookup_insert_ne by done.
Qed.

Lemma upload_try_others P f name path w k :
  k ≠ "pdf_chat_" +:+ uuid4 P (uuid_next w) →
  collections (upload_try P f name path w).2 !! k = collections w !! k.
Proof.
  intros Hk. unfold upload_try, bind.
  pose proof (open_wb_cases path w) as _.
  assert (K1c : preserves collections (open_wb path)) by frame_handlers.
  assert (K1u : preserves uuid_next (open_wb path)) by frame_handlers.
  specialize (K1c w). specialize (K1u w).
  destruct (open_wb path w) as [[e1|[]] w1]; simpl in *; [by rewrite K1c|].
  cbn [copyfileobj modify].
  set (w2 := set_fs _ w1).
  assert (K3c : preserves collections (getsize path)) by frame_handlers.
  assert (K3u : preserves uuid_next (getsize path)) by frame_handlers.
  specialize (K3c w2). specialize (K3u w2).
  destruct (getsize path w2) as [[e3|n] w3]; simpl in *; [by rewrite K3c, K1c|].
  destruct (n =? 0)%nat; [simpl; by rewrite K3c, K1c|].
  assert (K4c : preserves collections (load_and_split_pdf P path)) by frame_handlers.
  assert (K4u : preserves uuid_next (load_and_split_pdf P path)) by frame_handlers.
  specialize (K4c w3). specialize (K4u w3).
  destruct (load_and_split_pdf P path w3) as [[e4|chunks] w4]; simpl in *;
    [by rewrite K4c, K3c, K1c|].
  pose proof (create_vector_store_others P chunks w4 k) as K5.
  rewrite K4u, K3u in K5. subst w2. cbn in K5. rewrite K1u in K5.
  specialize (K5 Hk). rewrite K4c, K3c in K5. cbn in K5. rewrite K1c in K5.
  destruct (create_vector_store P chunks w4) as [[e5|db] w5]; simpl in *; [done|].
  assert (K6c : preserves collections (create_rag_chain P db)) by frame_handlers.
  specialize (K6c (set_vector_store (Some db) w5)).
  destruct (create_rag_chain P db (set_vector_store (Some db) w5)) as [[e6|chain] w6];
    simpl in *; by rewrite K6c.
Qed.

Lemma upload_document_others P f w k :
  k ≠ "pdf_chat_" +:+ uuid4 P (uuid_next w) →
  collections (upload_document TEMP_DIR P f w).2 !! k = collections w !! k.
Proof.
  intros Hk. unfold upload_document. case_bool_decide; [done|].
  assert (Hc : ∀ path, preserves collections (upload_cleanup path))
    by (intros; frame_handlers).
  destruct (filename f) as [name|]; [|done].
  unfold try_finally, try_except.
  pose proof (upload_try_others P f name
                (PosixPath.join TEMP_DIR
                   (PyStr.replace "/" "_" (PyStr.replace ".." "_" name))) w k Hk) as Ht.
  destruct (upload_try P f name _ w) as [[e|x] w1]; simpl in Ht.
  - destruct (upload_except_raises e w1) as [e' ->].
    specialize (Hc (PosixPath.join TEMP_DIR
                      (PyStr.replace "/" "_" (PyStr.replace ".." "_" name))) w1).
    destruct (upload_cleanup _ w1) as [[e2|[]] w2]; simpl in *; by rewrite Hc.
  - specialize (Hc (PosixPath.join TEMP_DIR
                      (PyStr.replace "/" "_" (PyStr.replace ".." "_" name))) w1).
    destruct (upload_cleanup _ w1) as [[e2|[]] w2]; simpl in *; by rewrite Hc.
Qed.

(** X22: an upload that fails changes no answer: if a chain was set, and its
    collection is not the one this upload drew a name for, every [/ask] after
    the failed upload has the outcome it would have had before it. *)
Theorem failed_upload_keeps_answers (P : Provider) (f : UploadFile) (w : World)
    (e : exn) (chain : Chain) (P' : Provider) (b : AskRequest) :
  (upload_document TEMP_DIR P f w).1 = inl e →
  rag_chain w = Some chain →
  collection_name (chain_retriever chain) ≠ "pdf_chat_" +:+ uuid4 P (uuid_next w) →
  (ask_question P' b (upload_document TEMP_DIR P f w).2).1 = (ask_question P' b w).1.
Proof.
  intros He Hc Hk.
  pose proof (upload_document_session TEMP_DIR P f w) as Hs.
  pose proof (upload_document_others P f w _ Hk) as Ho.
  destruct (upload_document TEMP_DIR P f w) as [[e'|x] w']; [|done].
  simpl in *. destruct Hs as [Hr _]. rewrite Hc in Hr.
  by rewrite (ask_question_set P' b w' chain Hr), (ask_question_set P' b w chain Hc), Ho.
Qed.

Lemma handle_store_with_chain P r w :
  (is_Some (rag_chain w) → is_Some (vector_store w)) →
  is_Some (rag_chain (handle TEMP_DIR P r w).2) →
  is_Some (vector_store (handle TEMP_DIR P r w).2).
Proof.
  intros Hw. destruct r as [|f|b]; simpl.
  - done.
  - pose proof (upload_document_session TEMP_DIR P f w) as Hs.
    destruct (upload_document TEMP_DIR P f w) as [[e|x] w']; simpl.
    + destruct Hs as [-> [-> |(? & ? & ? & ? & db & ? & _ & _ & ->)]]; [done|].
      by intros _.
    + destruct Hs as (? & ? & ? & ? & db & chain & _ & _ & _ & -> & _). by intros _.
  - by rewrite (ask_question_keeps rag_chain P b), (ask_question_keeps vector_store P b).
Qed.

(** X23: in every state the service can reach from start-up, a set
    [rag_chain] comes with a set [vector_store]: the Session is never a chain
    without a store (while a store without a chain is possible, after a
    failure of [create_rag_chain]). *)
Theorem chain_comes_with_store (rs : list (Provider * request))
    (disk : gmap string node) :
  is_Some (rag_chain (serve TEMP_DIR rs (boot disk)).2) →
  is_Some (vector_store (serve TEMP_DIR rs (boot disk)).2).
Proof.
  assert (H : ∀ w, (is_Some (rag_chain w) → is_Some (vector_store w)) →
                   is_Some (rag_chain (serve TEMP_DIR rs w).2) →
                   is_Some (vector_store (serve TEMP_DIR rs w).2)).
  { induction rs as [|[P r] rs IH]; intros w Hw; simpl; [done|].
    pose proof (handle_store_with_chain P r w Hw) as Hh.
    destruct (handle TEMP_DIR P r w) as [o w1]. simpl in Hh.
    specialize (IH w1 Hh). by destruct (serve TEMP_DIR rs w1) as [os w2]. }
  apply H. simpl. by intros [? [=]].
Qed.

End Observable.

(** ** An empty question *)

Section EmptyQuestion.
Import GradioUI.

(** X24: an empty question never reaches the service: whatever the service
    would answer, [handle_user_question] adds a row with the empty question
    to the chat and fills it with ["Please ask a question."]. *)
Theorem handle_empty_question (post : string → api_outcome)
    (h : list (string * option string)) :
  handle_user_question post "" h
  = [(h ++ [("", None)], ""); (h ++ [("", Some "Please ask a question.")], "")].
Proof.
  unfold handle_user_question. cbn [ask_question String.eqb stream_into].
  by rewrite alter_last_row.
Qed.

End EmptyQuestion.

Section ObservableInstances.
Import Main Examples Cases.

Lemma reupload_fails :
  (upload_document tmp provider_llm_down pdf_part ready).1
  = inl (HTTPException 500
           "An unexpected error occurred: Your default credentials were not found.").
Proof. vm_compute. reflexivity. Qed.

Lemma ready_chain :
  rag_chain ready
  = Some (mkChain "gemini-pro" 0 [("system", system_prompt); ("human", "{input}")]
            (mkChroma "pdf_chat_id-0" "models/embedding-001")).
Proof. vm_compute. reflexivity. Qed.

Lemma ready_next_name :
  "pdf_chat_id-0" ≠ "pdf_chat_" +:+ uuid4 provider_llm_down (uuid_next ready).
Proof. intros H. vm_compute in H. discriminate H. Qed.

(** A second upload fails at the language-model client, after it has put a
    new store into [vector_store]: the answers are those of the first. *)
Lemma failed_upload_keeps_answers_witness :
  (upload_document tmp provider_llm_down pdf_part ready).1
  = inl (HTTPException 500
           "An unexpected error occurred: Your default credentials were not found.") ∧
  (ask_question provider_up (mkAskRequest "What is Rocq?")
     (upload_document tmp provider_llm_down pdf_part ready).2).1
  = (ask_question provider_up (mkAskRequest "What is Rocq?") ready).1.
Proof.
  split; [exact reupload_fails|].
  exact (failed_upload_keeps_answers tmp provider_llm_down pdf_part ready _ _
           provider_up (mkAskRequest "What is Rocq?")
           reupload_fails ready_chain ready_next_name).
Defined.

Lemma served_once_ready :
  is_Some (rag_chain (serve tmp [(provider_up, PostUpload pdf_part)] (boot ∅)).2).
Proof. vm_compute. eexists. reflexivity. Qed.

Lemma chain_comes_with_store_witness :
  is_Some (rag_chain (serve tmp [(provider_up, PostUpload pdf_part)] (boot ∅)).2) ∧
  is_Some (vector_store (serve tmp [(provider_up, PostUpload pdf_part)] (boot ∅)).2).
Proof.
  exact (conj served_once_ready
           (chain_comes_with_store tmp [(provider_up, PostUpload pdf_part)] ∅
              served_once_ready)).
Defined.

End ObservableInstances.
